(** * lazythumbs: geometry parsing, URL resolution and the render view

    A shallow embedding of [lazythumbs/util.py] and [lazythumbs/views.py]
    (Python 2, Django) together with the properties proved about them.

    Python values that the code treats dynamically are modelled by the
    small universe [pyval]; exceptions are values of [exn] carried by the
    [result] type; the storage back end and the metadata cache are an
    explicit [world] threaded through the view's methods. *)

From Stdlib Require Import ZArith String Ascii List Bool Lia.
From Stdlib Require Import DecimalString DecimalN DecimalPos.
From Stdlib Require Import Floats.SpecFloat.
From stdpp Require Import base gmap strings.
Import ListNotations.

Local Open Scope string_scope.
Local Open Scope Z_scope.

(** ** Python basics *)

Module Py.

(** Exceptions raised by the code or by the library calls it makes. *)
Inductive exn : Type :=
| ValueError
| TypeError
| ZeroDivisionError
| OverflowError
| IOError
| SuspiciousOperation
| KeyError (key : string)
| AttributeError (name : string)
| NameError (name : string)
| UnboundLocalError (name : string).

Inductive result (A : Type) : Type :=
| Ok (a : A)
| Raise (e : exn).
Arguments Ok {A} a.
Arguments Raise {A} e.

Definition rbind {A B} (m : result A) (k : A -> result B) : result B :=
  match m with
  | Ok a => k a
  | Raise e => Raise e
  end.

(** The values that flow through the code: [None], integers (Python
    integers are unbounded), byte strings, and objects seen only through
    their attributes. [PName] stands for an opaque module-level or
    class-level object (an imported module, a bound method). *)
#[warnings="-register-all"]
Inductive pyval : Type :=
| PNone
| PInt (z : Z)
| PStr (s : string)
| PObj (attrs : list (string * pyval))
| PName (name : string).

(** Truth value testing: [None], [0] and [''] are false. *)
Definition truthy (v : pyval) : bool :=
  match v with
  | PNone => false
  | PInt z => negb (z =? 0)
  | PStr s => negb (s =? "")%string
  | PObj _ => true
  | PName _ => true
  end.

(** [x or y] *)
Definition py_or (x y : pyval) : pyval := if truthy x then x else y.

(** An optional integer ([None] or an int), the shape of a width or a
    height. *)
Definition of_dim (d : option Z) : pyval :=
  match d with
  | Some z => PInt z
  | None => PNone
  end.

Definition dim_truthy (d : option Z) : bool := truthy (of_dim d).

Definition dim_or (x y : option Z) : option Z := if dim_truthy x then x else y.

(** *** Decimal text *)

Definition is_digit (c : ascii) : bool :=
  let n := nat_of_ascii c in (48 <=? n)%nat && (n <=? 57)%nat.

Fixpoint all_digits (s : string) : bool :=
  match s with
  | EmptyString => true
  | String c s' => is_digit c && all_digits s'
  end.

(** [str(n)] for an integer. *)
Definition str_of_int (z : Z) : string := NilZero.string_of_int (Z.to_int z).

(** [int(s)] on a run of ASCII digits, most significant first: the
    conversion of a group that [\d+] matched. Anything else is not a
    run of digits and is reported as [ValueError]; [int_of_text] below
    is [int] on arbitrary text. *)
Fixpoint int_of_digits_acc (s : string) (acc : Z) : option Z :=
  match s with
  | EmptyString => Some acc
  | String c s' =>
      if is_digit c
      then int_of_digits_acc s' (10 * acc + (Z.of_nat (nat_of_ascii c) - 48))
      else None
  end.

Definition int_of_str (s : string) : result Z :=
  match s with
  | EmptyString => Raise ValueError
  | _ => match int_of_digits_acc s 0 with
         | Some z => Ok z
         | None => Raise ValueError
         end
  end.

(** [int(s)] for any string: blanks around the number and a sign in
    front of the digits are accepted, as in ' 200', '+7', '-3' or
    '12' followed by a newline; Python 2 also skips blanks between the
    sign and the digits. *)
Definition is_space (c : ascii) : bool :=
  let n := nat_of_ascii c in (n =? 32)%nat || ((9 <=? n)%nat && (n <=? 13)%nat).

Fixpoint lstrip (s : string) : string :=
  match s with
  | EmptyString => EmptyString
  | String c s' => if is_space c then lstrip s' else s
  end.

Fixpoint rstrip (s : string) : string :=
  match s with
  | EmptyString => EmptyString
  | String c s' =>
      match rstrip s' with
      | EmptyString => if is_space c then EmptyString else String c EmptyString
      | r => String c r
      end
  end.

Definition int_of_text (s : string) : result Z :=
  match rstrip (lstrip s) with
  | String "-" d => rbind (int_of_str (lstrip d)) (fun z => Ok (- z))
  | String "+" d => int_of_str (lstrip d)
  | t => int_of_str t
  end.

(** [str(v)]; an object's text is address dependent and left opaque. *)
Definition py_str (v : pyval) : string :=
  match v with
  | PNone => "None"
  | PInt z => str_of_int z
  | PStr s => s
  | PObj _ => "<object>"
  | PName n => n
  end.

(** [int(v)] *)
Definition py_int (v : pyval) : result Z :=
  match v with
  | PInt z => Ok z
  | PStr s => int_of_text s
  | _ => Raise TypeError
  end.

(** *** Strings *)

Fixpoint startswith (p s : string) : bool :=
  match p, s with
  | EmptyString, _ => true
  | String a p', String b s' => Ascii.eqb a b && startswith p' s'
  | String _ _, EmptyString => false
  end.

Fixpoint drop (n : nat) (s : string) : string :=
  match n, s with
  | O, _ => s
  | S n', String _ s' => drop n' s'
  | S _, EmptyString => EmptyString
  end.

Fixpoint endswith_char (c : ascii) (s : string) : bool :=
  match s with
  | EmptyString => false
  | String a EmptyString => Ascii.eqb a c
  | String _ s' => endswith_char c s'
  end.

(** [s.replace(old, new)]: non-overlapping occurrences, left to right;
    an empty [old] matches before every character and at the end. *)
Fixpoint replace_fuel (fuel : nat) (old new s : string) : string :=
  match fuel with
  | O => s
  | S fuel' =>
      match s with
      | EmptyString => EmptyString
      | String c s' =>
          if startswith old s
          then new ++ replace_fuel fuel' old new (drop (String.length old) s)
          else String c (replace_fuel fuel' old new s')
      end
  end.

Fixpoint intersperse (new s : string) : string :=
  match s with
  | EmptyString => new
  | String c s' => new ++ String c (intersperse new s')
  end.

Definition replace (old new s : string) : string :=
  match old with
  | EmptyString => intersperse new s
  | _ => replace_fuel (String.length s) old new s
  end.

(** [s.split(sep)] for a one-character separator. *)
Fixpoint split_char (sep : ascii) (s : string) (cur : string) : list string :=
  match s with
  | EmptyString => [cur]
  | String c s' =>
      if Ascii.eqb c sep
      then cur :: split_char sep s' ""
      else split_char sep s' (cur ++ String c "")
  end.

Definition split (sep : ascii) (s : string) : list string := split_char sep s "".

(** [fmt % args] restricted to the [%s] conversion: every [%s] consumes
    one argument; too few or too many arguments is a [TypeError]. A
    right operand that is not a tuple counts as a single argument. *)
Fixpoint format_go (fmt : string) (args : list pyval) : result string :=
  match fmt with
  | EmptyString =>
      match args with
      | [] => Ok ""
      | _ :: _ => Raise TypeError
      end
  | String "%" (String "s" fmt') =>
      match args with
      | a :: args' =>
          rbind (format_go fmt' args') (fun r => Ok (py_str a ++ r))
      | [] => Raise TypeError
      end
  | String c fmt' => rbind (format_go fmt' args) (fun r => Ok (String c r))
  end.

Definition format (fmt : string) (args : list pyval) : result string :=
  format_go fmt args.

(** *** Floating point

    [float] is IEEE 754 binary64; the operations are the executable
    reference semantics of the standard library. *)

Definition prec : Z := 53.
Definition emax : Z := 1024.

(** [float(n)]: correctly rounded, [OverflowError] beyond the range. *)
Definition float_of_int (z : Z) : result spec_float :=
  match binary_normalize prec emax z 0 false with
  | S754_infinity _ => Raise OverflowError
  | f => Ok f
  end.

(** [int(f)]: truncation toward zero. *)
Definition int_of_float (f : spec_float) : result Z :=
  match f with
  | S754_zero _ => Ok 0
  | S754_infinity _ => Raise OverflowError
  | S754_nan => Raise ValueError
  | S754_finite s m e =>
      let mag := if 0 <=? e then Z.shiftl (Z.pos m) e
                 else Z.shiftr (Z.pos m) (- e) in
      Ok (if s then - mag else mag)
  end.

(** [int(a * (float(b) / c))], the aspect computation that appears in
    both modules. [b] is a parsed dimension; [a] and [c] are whatever
    the source object exposes. *)
Definition scale (a : pyval) (b : option Z) (c : pyval) : result Z :=
  match b with
  | None => Raise TypeError
  | Some bz =>
      rbind (float_of_int bz) (fun fb =>
      match c with
      | PInt cz =>
          if cz =? 0 then Raise ZeroDivisionError
          else
            rbind (float_of_int cz) (fun fc =>
            let q := SFdiv prec emax fb fc in
            match a with
            | PInt az =>
                rbind (float_of_int az) (fun fa =>
                int_of_float (SFmul prec emax fa q))
            | _ => Raise TypeError
            end)
      | _ => Raise TypeError
      end)
  end.

End Py.

Import Py.

(** ** A backtracking matcher for the regular expressions of the code *)

Module Re.

Inductive regex : Type :=
| RBol                        (* ^ *)
| REol                        (* $ *)
| RChr (c : ascii)            (* a literal character *)
| RDigit                      (* \d *)
| RSeq (r1 r2 : regex)        (* r1 r2 *)
| ROpt (r : regex)            (* r? , greedy *)
| RPlus (r : regex)           (* r+ , greedy *)
| RGroup (r : regex).         (* ( r ), the capturing group *)

Record mstate : Type := MState {
  pos : nat;               (* characters consumed so far *)
  rest : string;           (* what remains of the subject *)
  grp : option string      (* text of the capturing group *)
}.

Definition advance (st : mstate) (s' : string) : mstate :=
  MState (S (pos st)) s' (grp st).

Definition newline : ascii := Ascii.ascii_of_nat 10.

(** The iteration of [r+]: [step] matches [r] once; after a match that
    consumed something the loop first tries one more round and falls
    back to the rest of the pattern [k]. *)
Fixpoint plus_loop (step : mstate -> (mstate -> option mstate) -> option mstate)
  (k : mstate -> option mstate) (fuel : nat) (st0 : mstate) {struct fuel}
  : option mstate :=
  match fuel with
  | O => None
  | S fuel' =>
      step st0 (fun st' =>
        if Nat.ltb (pos st0) (pos st')
        then match plus_loop step k fuel' st' with
             | Some m => Some m
             | None => k st'
             end
        else k st')
  end.

(** Continuation-passing matcher: [k] is the rest of the pattern, and a
    [None] from it makes the current construct try its next
    alternative. [$] matches at the end and before a final newline. *)
Fixpoint rmatch (r : regex) (st : mstate) (k : mstate -> option mstate)
  {struct r} : option mstate :=
  match r with
  | RBol => if Nat.eqb (pos st) 0 then k st else None
  | REol =>
      match rest st with
      | EmptyString => k st
      | String c EmptyString => if Ascii.eqb c newline then k st else None
      | _ => None
      end
  | RChr c =>
      match rest st with
      | String c' s' => if Ascii.eqb c c' then k (advance st s') else None
      | EmptyString => None
      end
  | RDigit =>
      match rest st with
      | String c' s' => if is_digit c' then k (advance st s') else None
      | EmptyString => None
      end
  | RSeq r1 r2 => rmatch r1 st (fun st' => rmatch r2 st' k)
  | ROpt r1 =>
      match rmatch r1 st k with
      | Some m => Some m
      | None => k st
      end
  | RPlus r1 => plus_loop (rmatch r1) k (S (String.length (rest st))) st
  | RGroup r1 =>
      rmatch r1 st (fun st' =>
        k (MState (pos st') (rest st')
             (Some (substring 0 (pos st' - pos st) (rest st)))))
  end.

(** [re.match(pattern, subject)]: anchored at the start of the subject. *)
Definition re_match (r : regex) (subject : string) : option mstate :=
  rmatch r (MState 0 subject None) Some.

(** [m.groups()[0]] *)
Definition group1 (m : mstate) : result string :=
  match grp m with
  | Some s => Ok s
  | None => Raise TypeError
  end.

End Re.

Import Re.

(** ** lazythumbs/util.py *)

Module Util.

(** r'^(\d+)(?:x\d+)?$' *)
Definition width_re : regex :=
  RSeq RBol
    (RSeq (RGroup (RPlus RDigit))
       (RSeq (ROpt (RSeq (RChr "x") (RPlus RDigit))) REol)).

(** r'^(?:\d+)?x(\d+)$' *)
Definition height_re : regex :=
  RSeq RBol
    (RSeq (ROpt (RPlus RDigit))
       (RSeq (RChr "x") (RSeq (RGroup (RPlus RDigit)) REol))).

Definition is_some {A} (o : option A) : bool :=
  match o with
  | Some _ => true
  | None => false
  end.

(** [int(m.groups()[0]) if m else None] *)
Definition dim_of_match (m : option mstate) : result (option Z) :=
  match m with
  | Some st => rbind (group1 st) (fun g => rbind (int_of_str g) (fun z => Ok (Some z)))
  | None => Ok None
  end.

(** util.py, lines 12-35. *)
Definition geometry_parse (action geometry : string) (exc : exn)
  : result (option Z * option Z) :=
  let width_match := re_match width_re geometry in
  let height_match := re_match height_re geometry in
  if negb (is_some width_match || is_some height_match) then Raise exc
  else
    rbind (dim_of_match width_match) (fun width =>
    rbind (dim_of_match height_match) (fun height =>
    if negb (dim_truthy (dim_or width height)) && negb (action =? "thumbnail")%string
    then
      let height := dim_or width height in
      let width := dim_or width height in
      Ok (width, height)
    else Ok (width, height))).

(** util.py, lines 38-44. *)
Definition build_geometry (width height : option Z) : string :=
  if dim_truthy width && dim_truthy height
  then py_str (of_dim width) ++ "x" ++ py_str (of_dim height)
  else if negb (dim_truthy width)
  then "x" ++ py_str (of_dim height)
  else py_str (of_dim width).

(** *** Attribute probing (util.py, lines 47-81) *)

(** [getattr(t, name, <absent>)]: only objects carry the attributes the
    code asks for ([name], [url], [path], [width], [height], [photo],
    [image]); integers, strings and [None] have none of them. *)
Fixpoint assoc (name : string) (attrs : list (string * pyval)) : option pyval :=
  match attrs with
  | [] => None
  | (n, v) :: attrs' => if (n =? name)%string then Some v else assoc name attrs'
  end.

Definition getattr_opt (t : pyval) (name : string) : option pyval :=
  match t with
  | PObj attrs => assoc name attrs
  | _ => None
  end.

Definition hasattr (t : pyval) (name : string) : bool := is_some (getattr_opt t name).

(** [getattr(t, prop)] *)
Definition getattr (t prop : pyval) : result pyval :=
  match prop with
  | PStr n =>
      match getattr_opt t n with
      | Some v => Ok v
      | None => Raise (AttributeError n)
      end
  | _ => Raise TypeError
  end.

(** [first(partial(hasattr, t), properties, default)] *)
Fixpoint first_prop (t : pyval) (properties : list string) (default : pyval) : pyval :=
  match properties with
  | [] => default
  | x :: xs => if hasattr t x then PStr x else first_prop t xs default
  end.

(** The [for t in to_search] loop. *)
Fixpoint quack_search (to_search : list pyval) (properties : list string)
  (default : pyval) : result pyval :=
  match to_search with
  | [] => Ok default
  | t :: ts =>
      let prop := first_prop t properties default in
      if truthy prop then getattr t prop
      else quack_search ts properties default
  end.

Definition quack (thing : pyval) (properties levels : list string)
  (default : pyval) : result pyval :=
  match thing with
  | PNone => Ok default
  | _ =>
      let nested :=
        List.map (fun l => match getattr_opt thing l with
                           | Some v => v
                           | None => PNone
                           end) levels in
      let to_search := thing :: List.filter truthy nested in
      quack_search to_search properties default
  end.

(** *** Settings *)

Record settings : Type := Settings {
  MEDIA_URL : string;
  THUMBNAIL_SOURCE_PATH : string;
  LAZYTHUMB_SOURCE_PATH : string;
  LAZYTHUMB_CACHE_TIMEOUT : Z;
  LAZYTHUMB_404_CACHE_TIMEOUT : Z;
  THUMBNAIL_CACHE_TIMEOUT : Z;
  THUMBNAIL_404_CACHE_TIMEOUT : Z;
  LAZYTHUMBS_URL : option string;   (* read with a default of '/' *)
  LAZYTHUMBS_DUMMY : bool           (* read with a default of False *)
}.

(** A dict literal, keys in source order. *)
Definition dict : Type := list (string * pyval).

Section ComputeImg.

(** [urlparse.urljoin] returns [url] for an empty base and the base for
    an empty url; the resolution of a relative reference against a
    non-empty base is the library's and is left as a parameter. It
    can raise: [ValueError] for a malformed url such as '//['. *)
Variable urljoin_resolve : string -> pyval -> result pyval.
Variable conf : settings.

Definition urljoin (base : string) (url : pyval) : result pyval :=
  if negb (truthy (PStr base)) then Ok url
  else if negb (truthy url) then Ok (PStr base)
  else urljoin_resolve base url.

Definition source_width (t : pyval) : result pyval :=
  quack t ["width"] ["photo"; "image"] (PStr "").

Definition source_height (t : pyval) : result pyval :=
  quack t ["height"] ["photo"; "image"] (PStr "").

(** The [exit] lambda of [compute_img]; an exception of [urljoin] is
    the outcome of the call. *)
Definition exit (u w h : pyval) : result dict :=
  rbind (urljoin (MEDIA_URL conf) u) (fun src =>
  Ok [ ("src", src);
       ("width", PStr (py_str (py_or w (PStr ""))));
       ("height", PStr (py_str (py_or h (PStr "")))) ]).

(** Lines 125-137: for [thumbnail] on an object, a missing dimension is
    scaled from the other one and the source's dimensions. *)
Definition thumbnail_dims (action : string) (img_object : pyval)
  (width height : option Z) : result (option Z * option Z) :=
  if (action =? "thumbnail")%string && truthy img_object then
    rbind
      (if negb (dim_truthy width) then
         rbind (source_width img_object) (fun s_w =>
         rbind (source_height img_object) (fun s_h =>
         if truthy s_w
         then rbind (scale s_w height s_h) (fun z => Ok (Some z))
         else Ok width))
       else Ok width) (fun width =>
    rbind
      (if negb (dim_truthy height) then
         rbind (source_width img_object) (fun s_w =>
         rbind (source_height img_object) (fun s_h =>
         if truthy s_h
         then rbind (scale s_h width s_w) (fun z => Ok (Some z))
         else Ok height))
       else Ok height) (fun height =>
    Ok (width, height)))
  else Ok (width, height).

(** [(s and d) and int(d) >= int(s)] *)
Definition at_least (s : pyval) (d : option Z) : result bool :=
  if truthy s && dim_truthy d
  then rbind (py_int (of_dim d)) (fun dz =>
       rbind (py_int s) (fun sz => Ok (sz <=? dz)))
  else Ok false.

(** Lines 143-149: the early exit when the requested image would not be
    smaller than the source. [Some d] is the returned dict, [None]
    means control falls through. *)
Definition upscale_guard (img_object url : pyval) (width height : option Z)
  : result (option dict) :=
  if truthy img_object then
    rbind (source_width img_object) (fun s_w =>
    rbind (at_least s_w width) (fun wide =>
    if wide then
      rbind (source_height img_object) (fun s_h =>
      rbind (exit url s_w s_h) (fun d => Ok (Some d)))
    else
      rbind (source_height img_object) (fun s_h =>
      rbind (at_least s_h height) (fun tall =>
      if tall then
        rbind (if truthy s_w then Ok s_w else source_width img_object) (fun w' =>
        rbind (exit url w' s_h) (fun d => Ok (Some d)))
      else Ok None))))
  else Ok None.

(** Lines 106-110: a fully qualified url loses the media prefix; one
    that is still fully qualified afterwards cannot be thumbnailed. *)
Definition strip_media (u : string) : string :=
  if startswith "http" u then replace (MEDIA_URL conf) "" u else u.

Definition external (u : string) : bool :=
  startswith "http" u && startswith "http" (strip_media u).

(** Line 151. *)
Definition render_src (action geometry url : string) : result string :=
  format "%slt_cache/%s/%s/%s"
    [ PStr (match LAZYTHUMBS_URL conf with Some u => u | None => "/" end);
      PStr action; PStr geometry; PStr url ].

(** util.py, lines 84-156. *)
Definition compute_img (thing : pyval) (action geometry : string) : result dict :=
  let img_object := match thing with PStr _ => PNone | _ => thing end in
  rbind (match thing with
         | PStr _ => Ok thing
         | _ => quack img_object ["name"; "url"; "path"] ["photo"; "image"] PNone
         end) (fun url =>
  if negb (truthy url) then
    rbind (source_width img_object) (fun w =>
    rbind (source_height img_object) (fun h => exit url w h))
  else
    match url with
    | PStr u =>
        let u1 := strip_media u in
        if external u then
          Ok [ ("url", PStr u1); ("width", PStr ""); ("height", PStr "") ]
        else
          match geometry_parse action geometry ValueError with
          | Raise ValueError =>
              rbind (source_width img_object) (fun w =>
              rbind (source_height img_object) (fun h => exit (PStr u1) w h))
          | Raise e => Raise e
          | Ok (width, height) =>
              rbind (thumbnail_dims action img_object width height) (fun wh =>
              let width := fst wh in
              let height := snd wh in
              rbind (upscale_guard img_object (PStr u1) width height) (fun early =>
              match early with
              | Some d => Ok d
              | None =>
                  rbind (render_src action geometry u1) (fun src =>
                  rbind (if LAZYTHUMBS_DUMMY conf
                         then format "http://placekitten.com/%s/%s"
                                [of_dim width; of_dim height]
                         else Ok src) (fun src =>
                  exit (PStr src) (of_dim width) (of_dim height)))
              end))
          end
    | _ => Raise (AttributeError "startswith")
    end).

(** [d[key]] *)
Definition getitem (d : dict) (key : string) : result pyval :=
  match assoc key d with
  | Some v => Ok v
  | None => Raise (KeyError key)
  end.

(** util.py, lines 165-174. *)
Definition get_img_attrs (thing : pyval) (action : string) (width height : pyval)
  : result dict :=
  rbind (if truthy width && negb (truthy height)
         then Ok (py_str width)
         else format "%sx%s" [py_or width (PStr ""); height]) (fun geometry =>
  compute_img thing action geometry).

(** util.py, lines 158-163. *)
Definition get_img_url (thing : pyval) (action : string) (width height : pyval)
  : result pyval :=
  rbind (get_img_attrs thing action width height) (fun d => getitem d "src").

End ComputeImg.

End Util.

Import Util.

(** ** lazythumbs/views.py *)

Module Views.

(** [os.path.join(a, b)] on POSIX. *)
Definition os_path_join (a b : string) : string :=
  if startswith "/" b then b
  else if (a =? "")%string || endswith_char "/" a then a ++ b
  else a ++ "/" ++ b.

(** '\.\./' *)
Definition dotdot_re : regex := RSeq (RChr ".") (RSeq (RChr ".") (RChr "/")).

(** *** Images

    An image is known by its size and by the operations that produced
    it; pixel data stays with the imaging library. [size] is
    (width, height). *)
Inductive image : Type :=
| Decoded (path : string) (w h : Z)
| Resized (src : image) (w h : Z)
| Cropped (src : image) (left upper right lower : Z).

Definition size (img : image) : Z * Z :=
  match img with
  | Decoded _ w h => (w, h)
  | Resized _ w h => (w, h)
  | Cropped _ l u r b => (r - l, b - u)
  end.

(** *** Responses *)

Record response : Type := Response {
  status : Z;
  content : string;
  content_type : string;
  headers : list (string * string)
}.

(** *** The world: storage, metadata cache, and a log of every access *)

Inductive event : Type :=
| FsOpen (path : string)
| FsExists (path : string)
| FsSave (path : string) (data : string)
| ImageOpen (path : string)
| CacheGet (key : string)
| CacheSet (key value : string) (timeout : Z).

Record world : Type := World {
  storage : gmap string string;
  cache : gmap string string;
  log : list event
}.

Definition M (A : Type) : Type := world -> result A * world.

Definition ret {A} (a : A) : M A := fun w => (Ok a, w).

Definition raise {A} (e : exn) : M A := fun w => (Raise e, w).

Definition bind {A B} (m : M A) (k : A -> M B) : M B :=
  fun w => match m w with
           | (Ok a, w') => k a w'
           | (Raise e, w') => (Raise e, w')
           end.

Definition lift {A} (r : result A) : M A := fun w => (r, w).

Definition emit (e : event) : M unit :=
  fun w => (Ok tt, World (storage w) (cache w) (log w ++ [e])).

Notation "'let*' x ':=' m 'in' k" := (bind m (fun x => k))
  (at level 10, x pattern, m at level 100, k at level 200, only parsing).

(** A local variable is a slot that is empty until assigned. *)
Definition read_local {A} (slot : option A) (name : string) : M A :=
  match slot with
  | Some v => ret v
  | None => raise (UnboundLocalError name)
  end.

(** Names bound at the top level of views.py. *)
Definition module_globals : list string :=
  [ "md5"; "json"; "os"; "re"; "types"; "settings"; "cache";
    "FileSystemStorage"; "ContentFile"; "SuspiciousOperation";
    "HttpResponse"; "View"; "ImageOps"; "Image"; "LazyThumbRenderer" ].

(** A name that is not local to the function is looked up among the
    module's globals (none of the names read this way is a builtin). *)
Definition load_global (name : string) : M pyval :=
  if existsb (String.eqb name) module_globals
  then ret (PName name)
  else raise (NameError name).

(** Attributes of a [LazyThumbRenderer] instance: those of the class
    body and those inherited from Django's [View]. *)
Definition class_attrs : list string :=
  [ "fs"; "action"; "_allowed_actions"; "get"; "render_and_save";
    "cache_key"; "hash_"; "two_hundered"; "four_oh_four"; "thumbnail";
    "resize";
    "http_method_names"; "as_view"; "dispatch"; "http_method_not_allowed";
    "request"; "args"; "kwargs" ].

(** [self.<name>] *)
Definition self_getattr (name : string) : M pyval :=
  if existsb (String.eqb name) class_attrs
  then ret (PName name)
  else raise (AttributeError name).

(** [x in v]: substring test on a string; the opaque objects are not
    iterable. *)
Fixpoint contains (needle hay : string) : bool :=
  startswith needle hay ||
  match hay with
  | EmptyString => false
  | String _ hay' => contains needle hay'
  end.

Definition py_in (x v : pyval) : result bool :=
  match v, x with
  | PStr hay, PStr needle => Ok (contains needle hay)
  | _, _ => Raise TypeError
  end.

(** The record kept in the metadata cache. *)
Record source_meta : Type := SourceMeta {
  rendered_path : string;
  was_404 : bool
}.

(** Library functions the view relies on: the digest, the JSON codec,
    the image decoder and encoder, the storage's choice of a free name,
    and the ways a write to the storage goes wrong.
    [save_failure fs name data] is [None] when writing [data] under
    [name] succeeds, and otherwise the exception raised ([IOError] or
    [OSError] from the file system, [SuspiciousOperation] for a name
    outside the storage root) together with what the storage holds
    afterwards, a partly written file for instance. *)
Record library : Type := Library {
  md5_hexdigest : string -> string;
  json_dumps : source_meta -> string;
  json_loads : string -> result source_meta;
  decode : string -> option image;
  tostring : image -> string;
  get_available_name : gmap string string -> string -> string;
  save_failure : gmap string string -> string -> string
                 -> option (exn * gmap string string)
}.

(** *** Names the code leaves open

    Python resolves a global name and an attribute of [self] when the
    statement runs. views.py reads the globals [action], [width],
    [height] and [img_meta] and the attributes [allowed_actions],
    [two_hundred] and [four_hundred] without binding any of them, and
    its own [hash_], [thumbnail] and [resize] raise on every call. A
    subclass, or a module that sets attributes of this one, can bind the
    former and override the latter; [bindings] is such an environment,
    and [as_written] is the one where nothing is added to the file.

    A method bound there is a function of its arguments; an action also
    sees what the storage holds, since it opens the source image. None
    writes to the storage or to the cache. The three kinds differ in
    their parameters, so a method called in the place of another kind
    raises [TypeError]. *)
Inductive method : Type :=
| Hasher (f : string -> pyval -> pyval -> pyval -> result string)
| Action (f : gmap string string -> string -> pyval -> pyval -> result string)
| Responder (f : list string -> result response).

Record bindings : Type := Bindings {
  bound_globals : list (string * pyval);
  bound_methods : list (string * method)
}.

Definition as_written : bindings := Bindings [] [].

Fixpoint binding {A} (name : string) (l : list (string * A)) : option A :=
  match l with
  | [] => None
  | (n, v) :: l' => if (n =? name)%string then Some v else binding name l'
  end.

(** A global name, first among the added bindings. *)
Definition load_global_in (ns : bindings) (name : string) : M pyval :=
  match binding name (bound_globals ns) with
  | Some v => ret v
  | None => load_global name
  end.

Section Renderer.

Variable conf : settings.
Variable lib : library.

(** *** Storage and cache operations *)

(** [self.fs.open(path).read()] *)
Definition fs_open (path : string) : M string :=
  let* _ := emit (FsOpen path) in
  fun w => match storage w !! path with
           | Some data => (Ok data, w)
           | None => (Raise IOError, w)
           end.

(** [self.fs.exists(path)] *)
Definition fs_exists (path : string) : M bool :=
  let* _ := emit (FsExists path) in
  fun w => (Ok (bool_decide (is_Some (storage w !! path))), w).

(** [self.fs.save(path, ContentFile(data))]: never overwrites, the
    content goes to the next available name, which is returned; the
    write itself can fail. *)
Definition fs_save (path data : string) : M string :=
  let* _ := emit (FsSave path data) in
  fun w => let name := get_available_name lib (storage w) path in
           match save_failure lib (storage w) name data with
           | None =>
               (Ok name, World (<[name := data]> (storage w)) (cache w) (log w))
           | Some (e, left_behind) =>
               (Raise e, World left_behind (cache w) (log w))
           end.

(** [cache.get(key)] *)
Definition cache_get (key : string) : M (option string) :=
  let* _ := emit (CacheGet key) in
  fun w => (Ok (cache w !! key), w).

(** [cache.set(key, value, timeout)] *)
Definition cache_set (key value : string) (timeout : Z) : M unit :=
  let* _ := emit (CacheSet key value timeout) in
  fun w => (Ok tt, World (storage w) (<[key := value]> (cache w)) (log w)).

(** [Image.open(path)] *)
Definition image_open (path : string) : M image :=
  let* _ := emit (ImageOpen path) in
  fun w => match storage w !! path with
           | Some data =>
               match decode lib data with
               | Some img => (Ok img, w)
               | None => (Raise IOError, w)
               end
           | None => (Raise IOError, w)
           end.

(** *** Responses (views.py, lines 149-168) *)

Definition cache_control (timeout : Z) : result string :=
  format "public,max-age=%s" [PInt timeout].

(** Declared as [two_hundered(img_data)], without [self]. *)
Definition two_hundered (img_data : string) : result response :=
  rbind (cache_control (THUMBNAIL_CACHE_TIMEOUT conf)) (fun cc =>
  Ok (Response 200 img_data "image/jpeg" [("Cache-Control", cc)])).

Definition four_oh_four : M response :=
  let* cc := lift (cache_control (THUMBNAIL_404_CACHE_TIMEOUT conf)) in
  ret (Response 404 "" "image/jpeg" [("Cache-Control", cc)]).

(** A call [f(args)] of a looked-up attribute that must produce a
    response. Among the attributes that exist only [four_oh_four] takes
    no argument besides [self]; [two_hundered] has a single parameter,
    which the instance itself fills, so one more argument is a
    [TypeError]. *)
Definition call_responder (f : pyval) (args : list string) : M response :=
  match f, args with
  | PName "four_oh_four", [] => four_oh_four
  | _, _ => raise TypeError
  end.

(** *** Actions (views.py, lines 170-209) *)

(** Lines 183-193 of [thumbnail], from the opened image on. *)
Definition thumbnail_opened (img : image) (width : Z) (height : option Z)
  : result image :=
  rbind (match height with
         | None =>
             rbind (scale (PInt (snd (size img))) (Some width) (PInt (fst (size img))))
               (fun h => Ok (true, h))
         | Some h => Ok (false, h)
         end) (fun dh =>
  let do_crop := fst dh in
  let height := snd dh in
  let width := Z.min width (snd (size img)) in
  let height := Z.min height (fst (size img)) in
  let img := Resized img width height in
  Ok (if do_crop : bool then Cropped img 0 0 width width else img)).

(** [thumbnail(self, img_path, width, height=None)]. The first
    statement is [img = Image.open(img)]: the local [img] is read while
    its slot is still empty. *)
Definition thumbnail (img_path : string) (width : Z) (height : option Z) : M string :=
  let img : option string := None in
  let* path := read_local img "img" in
  let* img := image_open path in
  let* out := lift (thumbnail_opened img width height) in
  ret (tostring lib out).

(** [resize(self, img_path, width, height)], with the same first
    statement. *)
Definition resize (img_path : string) (width height : Z) : M string :=
  let img : option string := None in
  let* path := read_local img "img" in
  let* img := image_open path in
  ret (tostring lib (Resized img width height)).

(** *** Keys (views.py, lines 123-147) *)

(** [md5(...)] accepts at most one argument, a string. *)
Definition md5_new (args : list pyval) : result string :=
  match args with
  | [] => Ok (md5_hexdigest lib "")
  | [PStr s] => Ok (md5_hexdigest lib s)
  | _ => Raise TypeError
  end.

(** [md5('%s:%s:%s:%s' % img_path, action, width, height).hexdigest()]:
    the format is applied to [img_path] alone, and its result would be
    the first of four arguments to [md5]. *)
Definition hash_ (img_path : string) (action width height : pyval) : result string :=
  rbind (format "%s:%s:%s:%s" [PStr img_path]) (fun text =>
  md5_new [PStr text; action; width; height]).

Definition cache_key (img_path : string) (action width height : pyval)
  : result string :=
  rbind (hash_ img_path action width height) (fun hashed =>
  format "lazythumbs:%s" [PStr hashed]).

(** *** Rendering (views.py, lines 108-121) *)

Definition expect_int (v : pyval) : M Z :=
  match v with
  | PInt z => ret z
  | _ => raise TypeError
  end.

Definition expect_dim (v : pyval) : M (option Z) :=
  match v with
  | PInt z => ret (Some z)
  | PNone => ret None
  | _ => raise TypeError
  end.

(** [getattr(self, action)(img_path, width, height)]. The two action
    methods are modelled at integer dimensions, the type their
    docstrings give. Of the other attributes only [render_and_save]
    accepts three arguments, and its own first statement raises
    (see below). *)
Definition call_action (action : pyval) (img_path : string) (width height : pyval)
  : M string :=
  match action with
  | PStr name =>
      let* _ := self_getattr name in
      if (name =? "thumbnail")%string then
        let* w := expect_int width in let* h := expect_dim height in thumbnail img_path w h
      else if (name =? "resize")%string then
        let* w := expect_int width in let* h := expect_int height in resize img_path w h
      else if (name =? "render_and_save")%string then
        raise (NameError "action")
      else raise TypeError
  | _ => raise TypeError
  end.

(** [self.hash_(img_path, action, width, height)] *)
Definition hash_in (ns : bindings) (img_path : string) (action width height : pyval)
  : result string :=
  match binding "hash_" (bound_methods ns) with
  | Some (Hasher f) => f img_path action width height
  | Some _ => Raise TypeError
  | None => hash_ img_path action width height
  end.

(** [getattr(self, action)(img_path, width, height)] *)
Definition call_action_in (ns : bindings) (action : pyval) (img_path : string)
  (width height : pyval) : M string :=
  match action with
  | PStr name =>
      match binding name (bound_methods ns) with
      | Some (Action f) => fun w => (f (storage w) img_path width height, w)
      | Some _ => raise TypeError
      | None => call_action action img_path width height
      end
  | _ => call_action action img_path width height
  end.

(** [self.<name>(args)] where a response is expected. *)
Definition respond_in (ns : bindings) (name : string) (args : list string)
  : M response :=
  match binding name (bound_methods ns) with
  | Some (Responder f) => lift (f args)
  | Some _ => raise TypeError
  | None => let* f := self_getattr name in call_responder f args
  end.

Definition render_and_save_in (ns : bindings) (img_path : string)
  (width height : pyval) : M (string * string) :=
  let* action := load_global_in ns "action" in
  let* action_hash := lift (hash_in ns img_path action width height) in
  let rendered_path :=
    substring 0 2 action_hash ++ "/" ++ substring 2 2 action_hash ++ "/" ++ action_hash in
  let* raw_data := call_action_in ns action img_path width height in
  let* _ := fs_save rendered_path raw_data in
  ret (rendered_path, raw_data).

Definition render_and_save (img_path : string) (width height : pyval)
  : M (string * string) :=
  render_and_save_in as_written img_path width height.

(** *** The view (views.py, lines 47-106) *)

(** Lines 78-92: the branch taken when the cache holds a record. The
    [finally] clause returns, which replaces whatever the [try] block
    and its handlers produced, an exception included. *)
Definition get_cached (source_path : string) : M response :=
  let* img_meta := load_global "img_meta" in
  let* source_meta := lift (match img_meta with
                            | PStr text => json_loads lib text
                            | _ => Raise TypeError
                            end) in
  let was_404 := was_404 source_meta in
  let rendered_path := rendered_path source_meta in
  let rendered_path := os_path_join (LAZYTHUMB_SOURCE_PATH conf) rendered_path in
  let attempt : M (option string) :=
    fun w =>
      match fs_open rendered_path w with
      | (Ok raw_data, w') => (Ok (Some raw_data), w')
      | (Raise IOError, w') =>
          (let* width := load_global "width" in
           let* height := load_global "height" in
           let* saved := render_and_save source_path width height in
           ret (Some (snd saved))) w'
      | (Raise SuspiciousOperation, w') =>
          (let* _ := four_oh_four in ret None) w'
      | (Raise e, w') => (Raise e, w')
      end in
  fun w =>
    let (outcome, w') := attempt w in
    let raw_data := match outcome with
                    | Ok slot => slot
                    | Raise _ => None
                    end in
    (let* two_hundred := self_getattr "two_hundred" in
     let* data := read_local raw_data "raw_data" in
     call_responder two_hundred [data]) w'.

(** Lines 94-106: the branch taken when the cache holds nothing. *)
Definition get_uncached_in (ns : bindings) (source_path cache_key : string)
  : M response :=
  let* present := fs_exists source_path in
  let* (response, source_meta, expires) :=
    (if present : bool then
       let* width := load_global_in ns "width" in
       let* height := load_global_in ns "height" in
       let* saved := render_and_save_in ns source_path width height in
       let* response := respond_in ns "two_hundred" [snd saved] in
       ret (response, SourceMeta (fst saved) false, LAZYTHUMB_CACHE_TIMEOUT conf)
     else
       let* response := respond_in ns "four_hundred" [] in
       ret (response, SourceMeta "" true, LAZYTHUMB_404_CACHE_TIMEOUT conf)) in
  let* _ := cache_set cache_key (json_dumps lib source_meta) expires in
  ret response.

Definition get_uncached (source_path cache_key : string) : M response :=
  get_uncached_in as_written source_path cache_key.

(** [get(self, request, action, geometry, source_path)] *)
Definition get (action geometry source_path : string) : M response :=
  let source_path := os_path_join (THUMBNAIL_SOURCE_PATH conf) source_path in
  if startswith "/" source_path then four_oh_four
  else if is_some (re_match dotdot_re source_path) then four_oh_four
  else
    let* allowed_actions := self_getattr "allowed_actions" in
    let* allowed := lift (py_in (PStr action) allowed_actions) in
    if negb allowed then four_oh_four
    else
      let wh := match split "x" geometry with
                | [w; h] => (PStr w, PStr h)
                | _ => (PStr geometry, PNone)
                end in
      let* width := load_global "width" in
      let* height := load_global "height" in
      let* cache_key := lift (cache_key source_path (PStr action) width height) in
      let* source_meta := cache_get cache_key in
      match source_meta with
      | Some text =>
          if negb (text =? "")%string then get_cached source_path
          else get_uncached source_path cache_key
      | None => get_uncached source_path cache_key
      end.

End Renderer.

End Views.

Import Views.

(** ** Sample configuration and inputs used in the statements below *)

Module Sample.

(** Django's default [MEDIA_URL] is the empty string; [LAZYTHUMBS_URL]
    and [LAZYTHUMBS_DUMMY] are left unset. *)
Definition conf : settings :=
  Settings "" "media" "cache" 3600 60 3600 60 None false.

(** The same with an empty source root, so that the request path is
    used as it is. *)
Definition conf_bare_root : settings :=
  Settings "" "" "cache" 3600 60 3600 60 None false.

(** A resolution for [urljoin]; with an empty [MEDIA_URL] it is never
    consulted. *)
Definition resolve (base : string) (url : pyval) : result pyval :=
  match url with
  | PStr u => Ok (PStr (base ++ u))
  | _ => Ok url
  end.

(** A local 200x100 photo. *)
Definition photo : pyval :=
  PObj [("name", PStr "a.jpg"); ("width", PInt 200); ("height", PInt 100)].


(** A decoded 200x100 source image. *)
Definition source_200x100 : image := Decoded "a.jpg" 200 100.

Definition empty_world : world := World ∅ ∅ [].

(** "x1" followed by 400 zeros: a height beyond the range of a float. *)
Fixpoint zeros (n : nat) : string :=
  match n with
  | O => ""
  | S n' => String "0" (zeros n')
  end.

Definition huge_height : string := "x1" ++ zeros 400.

(** A library whose writes always succeed and whose free name is the
    requested one, or that name with an underscore when it is taken. *)
Definition lib : library :=
  Library (fun s => s)
    (fun m => rendered_path m ++ (if was_404 m then ":404" else ":ok"))
    (fun _ => Raise ValueError)
    (fun _ => None)
    (fun _ => "")
    (fun fs p => match fs !! p with Some _ => p ++ "_" | None => p end)
    (fun _ _ _ => None).

(** The same on a full disk: every write raises [IOError] and leaves
    the storage as it was. *)
Definition lib_full_disk : library :=
  Library (md5_hexdigest lib) (json_dumps lib) (json_loads lib) (decode lib)
    (tostring lib) (get_available_name lib)
    (fun fs _ _ => Some (IOError, fs)).

(** An environment that binds every name the code leaves open: the
    three globals, a [hash_] that returns a fixed digest, an action
    [copy] that returns the source bytes, and the two responders. *)
Definition bound : bindings :=
  Bindings
    [ ("action", PStr "copy"); ("width", PInt 100); ("height", PInt 50) ]
    [ ("hash_", Hasher (fun _ _ _ _ => Ok "abcdef"));
      ("copy", Action (fun fs p _ _ => match fs !! p with
                                       | Some data => Ok data
                                       | None => Raise IOError
                                       end));
      ("two_hundred", Responder (fun args => match args with
                                             | [data] => Ok (Response 200 data "image/jpeg" [])
                                             | _ => Raise TypeError
                                             end));
      ("four_hundred", Responder (fun args => match args with
                                              | [] => Ok (Response 400 "" "image/jpeg" [])
                                              | _ => Raise TypeError
                                              end)) ].

(** The same with the action [resize] of the file, which raises. *)
Definition bound_resize : bindings :=
  Bindings
    [ ("action", PStr "resize"); ("width", PInt 100); ("height", PInt 50) ]
    (bound_methods bound).

(** A world whose storage holds the source "a.jpg" and whose cache is
    empty. *)
Definition stored : world := World {[ "a.jpg" := "JPEG" ]} ∅ [].

End Sample.

(** ** Vocabulary for the statements below *)

Module Shape.

(** The text that [$] tolerates after the last digit: nothing or one
    newline. *)
Definition is_line_end (nl : string) : Prop := nl = "" \/ nl = String newline "".

(** A dimension that is absent or a non-negative integer. *)
Definition nonneg_dim (d : option Z) : Prop :=
  match d with
  | Some z => 0 <= z
  | None => True
  end.


End Shape.

Import Shape.
(** * Properties *)

(** ** Decimal text *)

Section DecimalText.

Lemma append_cons (c : ascii) (s t : string) : String c s ++ t = String c (s ++ t).
Proof. reflexivity. Qed.

Lemma append_nil_r (s : string) : s ++ "" = s.
Proof. induction s as [|c s IH]; [reflexivity | now rewrite append_cons, IH]. Qed.

Lemma append_assoc (a b c : string) : (a ++ b) ++ c = a ++ (b ++ c).
Proof. induction a as [|x a IH]; [reflexivity | now rewrite !append_cons, IH]. Qed.

Ltac digit_arith :=
  match goal with
  | |- context [Z.of_nat (nat_of_ascii ?c)] =>
      let k := eval vm_compute in (Z.of_nat (nat_of_ascii c)) in
      change (Z.of_nat (nat_of_ascii c)) with k; lia
  end.

Lemma all_digits_uint (d : Decimal.uint) :
  all_digits (NilEmpty.string_of_uint d) = true.
Proof. induction d; simpl; auto. Qed.

Lemma int_of_digits_acc_pos (d : Decimal.uint) (acc : positive) :
  int_of_digits_acc (NilEmpty.string_of_uint d) (Z.pos acc)
  = Some (Z.pos (Pos.of_uint_acc d acc)).
Proof.
  revert acc. induction d; intro acc; simpl; try reflexivity;
    change (is_digit _) with true; cbn iota;
    match goal with
    | |- int_of_digits_acc _ ?z = _ =>
        match goal with
        | |- _ = Some (Z.pos (Pos.of_uint_acc _ ?q)) =>
            replace z with (Z.pos q) by digit_arith
        end
    end; apply IHd.
Qed.

Lemma int_of_digits_acc_zero (d : Decimal.uint) :
  int_of_digits_acc (NilEmpty.string_of_uint d) 0 = Some (Z.of_N (N.of_uint d)).
Proof.
  induction d; simpl; try reflexivity;
    change (is_digit _) with true; cbn iota;
    match goal with
    | |- int_of_digits_acc _ ?z = Some (Z.pos (Pos.of_uint_acc _ ?q)) =>
        replace z with (Z.pos q) by digit_arith; apply int_of_digits_acc_pos
    | |- int_of_digits_acc _ ?z = _ =>
        replace z with 0 by digit_arith; exact IHd
    end.
Qed.

Lemma str_of_int_pos (p : positive) :
  str_of_int (Z.pos p) = NilEmpty.string_of_uint (Pos.to_uint p).
Proof.
  unfold str_of_int. simpl. unfold NilZero.string_of_uint.
  destruct (Pos.to_uint p) eqn:E; try reflexivity.
  exfalso. apply (f_equal Pos.of_uint) in E.
  rewrite DecimalPos.Unsigned.of_to in E. discriminate.
Qed.

Lemma str_of_int_pos_digits (p : positive) : all_digits (str_of_int (Z.pos p)) = true.
Proof. rewrite str_of_int_pos. apply all_digits_uint. Qed.

Lemma str_of_int_pos_nonempty (p : positive) : str_of_int (Z.pos p) <> "".
Proof.
  rewrite str_of_int_pos. intro E.
  assert (H : Pos.to_uint p = Decimal.Nil) by (destruct (Pos.to_uint p); simpl in E; congruence).
  apply (f_equal Pos.of_uint) in H. rewrite DecimalPos.Unsigned.of_to in H. discriminate.
Qed.

(** [int(str(n)) = n] for a positive [n]. *)
Lemma int_of_str_of_int (p : positive) : int_of_str (str_of_int (Z.pos p)) = Ok (Z.pos p).
Proof.
  unfold int_of_str.
  destruct (str_of_int (Z.pos p)) eqn:E.
  - exfalso. now apply (str_of_int_pos_nonempty p).
  - rewrite <- E, str_of_int_pos, int_of_digits_acc_zero.
    rewrite DecimalPos.Unsigned.of_to. reflexivity.
Qed.

End DecimalText.

(** ** Matching runs of digits *)

Section DigitRuns.

Lemma substring_prefix (ds tl : string) :
  substring 0 (String.length ds) (ds ++ tl) = ds.
Proof.
  induction ds as [|c ds IH].
  - destruct tl; reflexivity.
  - rewrite append_cons. simpl. now rewrite IH.
Qed.

Lemma length_append (a b : string) :
  String.length (a ++ b) = (String.length a + String.length b)%nat.
Proof.
  induction a as [|c a IH]; [reflexivity|].
  rewrite append_cons. simpl. now rewrite IH.
Qed.

Lemma plus_loop_step step k fuel st :
  plus_loop step k (S fuel) st
  = step st (fun st' =>
      if Nat.ltb (pos st) (pos st')
      then match plus_loop step k fuel st' with
           | Some m => Some m
           | None => k st'
           end
      else k st').
Proof. reflexivity. Qed.

Lemma rmatch_digit_cons p c s g k :
  rmatch RDigit (MState p (String c s) g) k
  = if is_digit c then k (MState (S p) s g) else None.
Proof. reflexivity. Qed.

Lemma rmatch_digit_nil p g k : rmatch RDigit (MState p "" g) k = None.
Proof. reflexivity. Qed.

(** A [\d+] in front of anything but a digit fails. *)
Lemma plus_digit_none k fuel p s g :
  match s with String c _ => is_digit c | EmptyString => false end = false ->
  plus_loop (rmatch RDigit) k fuel (MState p s g) = None.
Proof.
  intros H. destruct fuel; [reflexivity|]. rewrite plus_loop_step.
  destruct s as [|c s]; [reflexivity|]. now rewrite rmatch_digit_cons, H.
Qed.

(** Greedy success: [\d+] takes the whole run of digits [ds] when the
    rest of the pattern accepts what follows. *)
Lemma plus_digit_greedy ds : forall tl k m p g fuel s,
  all_digits ds = true -> ds <> "" ->
  match tl with String c _ => is_digit c | EmptyString => false end = false ->
  (String.length ds <= fuel)%nat ->
  s = ds ++ tl ->
  k (MState (p + String.length ds) tl g) = Some m ->
  plus_loop (rmatch RDigit) k fuel (MState p s g) = Some m.
Proof.
  induction ds as [|c ds IH]; intros tl k m p g fuel s Hd Hne Htl Hfuel -> Hk.
  - congruence.
  - simpl in Hd. apply andb_prop in Hd as [Hc Hd].
    destruct fuel as [|fuel]; [simpl in Hfuel; lia|].
    rewrite append_cons, plus_loop_step, rmatch_digit_cons, Hc. cbn [pos].
    replace (p <? S p)%nat with true by (symmetry; apply Nat.ltb_lt; lia).
    destruct ds as [|c' ds'].
    + change ("" ++ tl) with tl. rewrite (plus_digit_none k fuel (S p) tl g Htl).
      simpl in Hk. replace (S p) with (p + 1)%nat by lia. exact Hk.
    + erewrite IH; [reflexivity | exact Hd | congruence | exact Htl | | reflexivity | ].
      * simpl in Hfuel |- *. lia.
      * replace (S p + String.length (String c' ds'))%nat
          with (p + String.length (String c (String c' ds')))%nat by (simpl; lia).
        exact Hk.
Qed.

(** Failure: if the rest of the pattern rejects every all-digit
    remainder, [\d+] over an all-digit subject fails after trying every
    split. *)
Lemma plus_digit_fail s : forall k p g fuel,
  all_digits s = true ->
  (forall p' s' g', all_digits s' = true -> k (MState p' s' g') = None) ->
  plus_loop (rmatch RDigit) k fuel (MState p s g) = None.
Proof.
  induction s as [|c s IH]; intros k p g fuel Hd Hk.
  - destruct fuel; reflexivity.
  - simpl in Hd. apply andb_prop in Hd as [Hc Hd].
    destruct fuel as [|fuel]; [reflexivity|].
    rewrite plus_loop_step, rmatch_digit_cons, Hc. cbn [pos].
    replace (p <? S p)%nat with true by (symmetry; apply Nat.ltb_lt; lia).
    rewrite (IH k (S p) g fuel Hd Hk). apply Hk, Hd.
Qed.

End DigitRuns.

(** ** The two geometry patterns on the accepted forms *)

Section GeometryPatterns.

Variables dw dh : string.
Hypothesis dw_digits : all_digits dw = true.
Hypothesis dh_digits : all_digits dh = true.
Hypothesis dw_nonempty : dw <> "".
Hypothesis dh_nonempty : dh <> "".

Lemma width_re_unfold s :
  re_match width_re s
  = plus_loop (rmatch RDigit)
      (fun st' =>
         rmatch (RSeq (ROpt (RSeq (RChr "x") (RPlus RDigit))) REol)
           (MState (pos st') (rest st') (Some (substring 0 (pos st' - 0) s))) Some)
      (S (String.length s)) (MState 0 s None).
Proof. reflexivity. Qed.

Lemma height_re_unfold s :
  re_match height_re s
  = let k := fun st' =>
      rmatch (RSeq (RChr "x") (RSeq (RGroup (RPlus RDigit)) REol)) st' Some in
    match plus_loop (rmatch RDigit) k (S (String.length s)) (MState 0 s None) with
    | Some m => Some m
    | None => k (MState 0 s None)
    end.
Proof. reflexivity. Qed.

Lemma rmatch_seq r1 r2 st k :
  rmatch (RSeq r1 r2) st k = rmatch r1 st (fun st' => rmatch r2 st' k).
Proof. reflexivity. Qed.

Lemma rmatch_opt r st k :
  rmatch (ROpt r) st k
  = match rmatch r st k with Some m => Some m | None => k st end.
Proof. reflexivity. Qed.

Lemma rmatch_plus r st k :
  rmatch (RPlus r) st k = plus_loop (rmatch r) k (S (String.length (rest st))) st.
Proof. reflexivity. Qed.

Lemma rmatch_group r st k :
  rmatch (RGroup r) st k
  = rmatch r st (fun st' =>
      k (MState (pos st') (rest st')
           (Some (substring 0 (pos st' - pos st) (rest st))))).
Proof. reflexivity. Qed.

Lemma rmatch_chr_cons c p s g k :
  rmatch (RChr c) (MState p (String c s) g) k = k (MState (S p) s g).
Proof. cbn [rmatch rest]. now rewrite Ascii.eqb_refl. Qed.

Lemma rmatch_chr_nil c p g k : rmatch (RChr c) (MState p "" g) k = None.
Proof. reflexivity. Qed.

Lemma rmatch_eol_nil p g k : rmatch REol (MState p "" g) k = k (MState p "" g).
Proof. reflexivity. Qed.

(** [\d+$] on a run of digits, with whatever the group has captured. *)
Lemma digits_to_end p g s :
  all_digits s = true -> s <> "" ->
  rmatch (RSeq (RPlus RDigit) REol) (MState p s g) Some
  = Some (MState (p + String.length s) "" g).
Proof.
  intros Hd Hne. rewrite rmatch_seq, rmatch_plus.
  eapply plus_digit_greedy with (ds := s) (tl := "");
    [exact Hd | exact Hne | reflexivity | cbn [rest]; lia
    | symmetry; apply append_nil_r | ].
  apply rmatch_eol_nil.
Qed.

(** [x(\d+)$] on ["x" ++ dh]. *)
Lemma height_tail p g :
  exists st,
    rmatch (RSeq (RChr "x") (RSeq (RGroup (RPlus RDigit)) REol))
      (MState p (String "x" dh) g) Some = Some st
    /\ grp st = Some dh.
Proof.
  eexists. split.
  - rewrite rmatch_seq, rmatch_chr_cons, rmatch_seq, rmatch_group, rmatch_plus.
    eapply plus_digit_greedy with (ds := dh) (tl := "");
      [exact dh_digits | exact dh_nonempty | reflexivity | cbn [rest]; lia
      | symmetry; apply append_nil_r | ].
    cbv beta. cbn [pos rest]. apply rmatch_eol_nil.
  - cbn [grp pos]. f_equal.
    replace (S p + String.length dh - S p)%nat with (String.length dh) by lia.
    rewrite <- (append_nil_r dh) at 2. apply substring_prefix.
Qed.

Lemma width_match_w :
  exists st, re_match width_re dw = Some st /\ grp st = Some dw.
Proof.
  eexists. split.
  - rewrite width_re_unfold.
    eapply plus_digit_greedy with (ds := dw) (tl := "");
      [exact dw_digits | exact dw_nonempty | reflexivity | lia
      | symmetry; apply append_nil_r | ].
    cbv beta. cbn [pos rest].
    rewrite rmatch_seq, rmatch_opt, rmatch_seq, rmatch_chr_nil.
    apply rmatch_eol_nil.
  - cbn [grp]. f_equal.
    replace (0 + String.length dw - 0)%nat with (String.length dw) by lia.
    rewrite <- (append_nil_r dw) at 2. apply substring_prefix.
Qed.

Lemma width_match_wxh :
  exists st, re_match width_re (dw ++ "x" ++ dh) = Some st /\ grp st = Some dw.
Proof.
  eexists. split.
  - rewrite width_re_unfold.
    eapply plus_digit_greedy with (ds := dw) (tl := "x" ++ dh);
      [exact dw_digits | exact dw_nonempty | reflexivity
      | rewrite length_append; lia | reflexivity | ].
    change ("x" ++ dh) with (String "x" dh).
    cbv beta. cbn [pos rest].
    rewrite rmatch_seq, rmatch_opt, rmatch_seq, rmatch_chr_cons.
    change (rmatch (RPlus RDigit) ?st (fun st' => rmatch REol st' Some))
      with (rmatch (RSeq (RPlus RDigit) REol) st Some).
    rewrite digits_to_end by (exact dh_digits || exact dh_nonempty).
    reflexivity.
  - cbn [grp]. f_equal.
    replace (0 + String.length dw - 0)%nat with (String.length dw) by lia.
    apply substring_prefix.
Qed.

Lemma width_match_xh : re_match width_re ("x" ++ dh) = None.
Proof. rewrite width_re_unfold. apply plus_digit_none. reflexivity. Qed.

Lemma height_match_w : re_match height_re dw = None.
Proof.
  rewrite height_re_unfold. cbv zeta.
  assert (Hk : forall p' s' g', all_digits s' = true ->
            rmatch (RSeq (RChr "x") (RSeq (RGroup (RPlus RDigit)) REol))
              (MState p' s' g') Some = None).
  { intros p' s' g' Hs. rewrite rmatch_seq.
    destruct s' as [|c s']; [reflexivity|].
    simpl in Hs. apply andb_prop in Hs as [Hc _].
    cbn [rmatch rest].
    destruct (Ascii.eqb "x" c) eqn:E; [|reflexivity].
    apply Ascii.eqb_eq in E. subst c. discriminate. }
  rewrite plus_digit_fail by (exact dw_digits || exact Hk).
  apply Hk, dw_digits.
Qed.

Lemma height_match_wxh :
  exists st, re_match height_re (dw ++ "x" ++ dh) = Some st /\ grp st = Some dh.
Proof.
  destruct (height_tail (0 + String.length dw) None) as (st & Hst & Hg).
  exists st. split; [|exact Hg].
  rewrite height_re_unfold. cbv zeta.
  erewrite plus_digit_greedy with (ds := dw) (tl := "x" ++ dh);
    [reflexivity | exact dw_digits | exact dw_nonempty | reflexivity
    | rewrite length_append; lia | reflexivity | exact Hst].
Qed.

Lemma height_match_xh :
  exists st, re_match height_re ("x" ++ dh) = Some st /\ grp st = Some dh.
Proof.
  destruct (height_tail 0 None) as (st & Hst & Hg).
  exists st. split; [|exact Hg].
  rewrite height_re_unfold. cbv zeta.
  rewrite plus_digit_none by reflexivity. exact Hst.
Qed.

End GeometryPatterns.

(** ** geometry_parse and build_geometry *)

Section Geometry.

Lemma dim_of_match_some st (p : positive) :
  grp st = Some (str_of_int (Z.pos p)) ->
  dim_of_match (Some st) = Ok (Some (Z.pos p)).
Proof.
  intros Hg. unfold dim_of_match, group1. rewrite Hg. cbn [rbind].
  now rewrite int_of_str_of_int.
Qed.

(** ["W"] parses to [(W, None)], whatever the action. *)
Lemma geometry_parse_w action exc (W : positive) :
  geometry_parse action (str_of_int (Z.pos W)) exc = Ok (Some (Z.pos W), None).
Proof.
  destruct (width_match_w (str_of_int (Z.pos W)) (str_of_int_pos_digits W)
              (str_of_int_pos_nonempty W)) as (st & Hst & Hg).
  unfold geometry_parse.
  rewrite Hst, (height_match_w _ (str_of_int_pos_digits W)).
  cbn [is_some orb negb]. rewrite (dim_of_match_some _ _ Hg). reflexivity.
Qed.

(** ["WxH"] parses to [(W, H)], whatever the action. *)
Lemma geometry_parse_wxh action exc (W H : positive) :
  geometry_parse action (str_of_int (Z.pos W) ++ "x" ++ str_of_int (Z.pos H)) exc
  = Ok (Some (Z.pos W), Some (Z.pos H)).
Proof.
  destruct (width_match_wxh _ (str_of_int (Z.pos H)) (str_of_int_pos_digits W)
              (str_of_int_pos_digits H) (str_of_int_pos_nonempty W)
              (str_of_int_pos_nonempty H)) as (sw & Hsw & Hgw).
  destruct (height_match_wxh (str_of_int (Z.pos W)) _ (str_of_int_pos_digits W)
              (str_of_int_pos_digits H) (str_of_int_pos_nonempty W)
              (str_of_int_pos_nonempty H)) as (sh & Hsh & Hgh).
  unfold geometry_parse. rewrite Hsw, Hsh.
  cbn [is_some orb negb].
  rewrite (dim_of_match_some _ _ Hgw), (dim_of_match_some _ _ Hgh). reflexivity.
Qed.

(** ["xH"] parses to [(None, H)], whatever the action. *)
Lemma geometry_parse_xh action exc (H : positive) :
  geometry_parse action ("x" ++ str_of_int (Z.pos H)) exc = Ok (None, Some (Z.pos H)).
Proof.
  destruct (height_match_xh _ (str_of_int_pos_digits H) (str_of_int_pos_nonempty H))
    as (sh & Hsh & Hgh).
  unfold geometry_parse. rewrite width_match_xh, Hsh.
  cbn [is_some orb negb].
  rewrite (dim_of_match_some _ _ Hgh). reflexivity.
Qed.

Lemma build_geometry_w (W : positive) :
  build_geometry (Some (Z.pos W)) None = str_of_int (Z.pos W).
Proof. reflexivity. Qed.

Lemma build_geometry_wxh (W H : positive) :
  build_geometry (Some (Z.pos W)) (Some (Z.pos H))
  = str_of_int (Z.pos W) ++ "x" ++ str_of_int (Z.pos H).
Proof. reflexivity. Qed.

Lemma build_geometry_xh (H : positive) :
  build_geometry None (Some (Z.pos H)) = "x" ++ str_of_int (Z.pos H).
Proof. reflexivity. Qed.

(** C10. For the thumbnail action, parsing a canonical geometry string
    and building the geometry of the parsed pair gives the string back:
    for all positive integers W and H, written by [str] (decimal, no
    leading zeros), each of "W", "WxH" and "xH" parses without raising
    and [build_geometry] of the result is the string itself. *)
Theorem parse_then_build_is_identity (exc : exn) (W H : positive) :
  let w := str_of_int (Z.pos W) in
  let h := str_of_int (Z.pos H) in
  let canonical g :=
    rbind (geometry_parse "thumbnail" g exc)
      (fun wh => Ok (build_geometry (fst wh) (snd wh))) in
  canonical w = Ok w
  /\ canonical (w ++ "x" ++ h) = Ok (w ++ "x" ++ h)
  /\ canonical ("x" ++ h) = Ok ("x" ++ h).
Proof.
  cbv beta zeta. rewrite geometry_parse_w, geometry_parse_wxh, geometry_parse_xh.
  repeat split.
Qed.

(** Leading zeros are not preserved: "0100" comes back as "100". *)
Lemma parse_then_build_drops_zeros (exc : exn) :
  rbind (geometry_parse "thumbnail" "0100" exc)
    (fun wh => Ok (build_geometry (fst wh) (snd wh))) = Ok "100".
Proof. reflexivity. Qed.

(** C5. What [geometry_parse] returns on the listed inputs: (100, 50)
    for thumbnail on "100x50"; (100, None) for thumbnail on "100";
    (None, 50) for any action on "x50"; the supplied exception on
    "bogus"; and for every action, resize included, (100, None) on
    "100": the missing dimension is not set to the given one, so the
    result is not (100, 100). *)
Theorem geometry_parse_examples (exc : exn) :
  geometry_parse "thumbnail" "100x50" exc = Ok (Some 100, Some 50)
  /\ geometry_parse "thumbnail" "100" exc = Ok (Some 100, None)
  /\ (forall action, geometry_parse action "x50" exc = Ok (None, Some 50))
  /\ (forall action, geometry_parse action "bogus" exc = Raise exc)
  /\ (forall action, geometry_parse action "100" exc = Ok (Some 100, None))
  /\ geometry_parse "resize" "100" exc <> Ok (Some 100, Some 100).
Proof.
  repeat split; try (intros action); try reflexivity.
  discriminate.
Qed.

End Geometry.

(** ** compute_img *)

Section ComputeImgFacts.

Variable resolve : string -> pyval -> result pyval.
Variable conf : settings.

Lemma thumbnail_dims_other action img w h :
  (action =? "thumbnail")%string = false ->
  thumbnail_dims action img w h = Ok (w, h).
Proof. intros E. unfold thumbnail_dims. now rewrite E. Qed.

Lemma thumbnail_dims_both action img w h :
  dim_truthy w = true -> dim_truthy h = true ->
  thumbnail_dims action img w h = Ok (w, h).
Proof.
  intros Hw Hh. unfold thumbnail_dims. rewrite Hw, Hh.
  now destruct (_ && _).
Qed.






End ComputeImgFacts.

Section UpscaleGuard.

Variable resolve : string -> pyval -> result pyval.
Variable conf : settings.






End UpscaleGuard.



(** With an integer too large for a float as the requested height, the
    aspect computation of [thumbnail] raises before the guard is reached. *)
Lemma upscale_guard_aspect_overflow :
  compute_img Sample.resolve Sample.conf Sample.photo "thumbnail" Sample.huge_height
  = Raise OverflowError.
Proof. vm_compute. reflexivity. Qed.

Section RenderUrl.

Variable resolve : string -> pyval -> result pyval.
Variable conf : settings.

Lemma render_src_text action geometry url :
  render_src conf action geometry url
  = Ok (match LAZYTHUMBS_URL conf with Some u => u | None => "/" end
        ++ "lt_cache/" ++ action ++ "/" ++ geometry ++ "/" ++ url).
Proof.
  unfold render_src, format. cbn [format_go rbind py_str].
  rewrite append_nil_r. reflexivity.
Qed.

(** For a bare local path the result carries the render url of line
    151, in which the geometry appears as it was passed in. *)
Lemma compute_img_bare_path u action geometry w h :
  u <> "" -> startswith "http" u = false ->
  geometry_parse action geometry ValueError = Ok (w, h) ->
  LAZYTHUMBS_DUMMY conf = false ->
  compute_img resolve conf (PStr u) action geometry
  = exit resolve conf
      (PStr (match LAZYTHUMBS_URL conf with Some u => u | None => "/" end
             ++ "lt_cache/" ++ action ++ "/" ++ geometry ++ "/" ++ u))
      (of_dim w) (of_dim h).
Proof.
  intros Hne Hhttp Hparse Hdummy. unfold compute_img. cbn [rbind truthy].
  replace (u =? "")%string with false by (symmetry; now apply String.eqb_neq).
  cbn [negb]. unfold external, strip_media. rewrite Hhttp. cbn [andb].
  rewrite Hparse. unfold thumbnail_dims, upscale_guard. cbn [truthy].
  rewrite andb_false_r. cbn [rbind fst snd].
  rewrite render_src_text, Hdummy. reflexivity.
Qed.

End RenderUrl.

(** C6. The render url carries the geometry string as it was given,
    not the canonical one: "100x50" and "0100x50" parse to the same
    pair, whose canonical geometry is "100x50", and "100" and "100x100"
    are the pair given as the example for resize; in both cases the
    two urls differ. *)
Theorem render_url_uses_raw_geometry (resolve : string -> pyval -> result pyval) :
  geometry_parse "resize" "0100x50" ValueError = geometry_parse "resize" "100x50" ValueError
  /\ build_geometry (Some 100) (Some 50) = "100x50"
  /\ compute_img resolve Sample.conf (PStr "a.jpg") "resize" "100x50"
     = Ok [("src", PStr "/lt_cache/resize/100x50/a.jpg");
           ("width", PStr "100"); ("height", PStr "50")]
  /\ compute_img resolve Sample.conf (PStr "a.jpg") "resize" "0100x50"
     = Ok [("src", PStr "/lt_cache/resize/0100x50/a.jpg");
           ("width", PStr "100"); ("height", PStr "50")]
  /\ compute_img resolve Sample.conf (PStr "a.jpg") "resize" "100"
     = Ok [("src", PStr "/lt_cache/resize/100/a.jpg");
           ("width", PStr "100"); ("height", PStr "")]
  /\ compute_img resolve Sample.conf (PStr "a.jpg") "resize" "100x100"
     = Ok [("src", PStr "/lt_cache/resize/100x100/a.jpg");
           ("width", PStr "100"); ("height", PStr "100")].
Proof. repeat split. Qed.

(** ** The view *)

Section ViewFacts.

Variable conf : settings.
Variable lib : library.

Lemma cache_control_text t :
  cache_control t = Ok ("public,max-age=" ++ str_of_int t).
Proof.
  unfold cache_control, format. cbn [format_go rbind py_str].
  now rewrite append_nil_r.
Qed.

Lemma four_oh_four_response w :
  four_oh_four conf w
  = (Ok (Response 404 "" "image/jpeg"
           [("Cache-Control",
             "public,max-age=" ++ str_of_int (THUMBNAIL_404_CACHE_TIMEOUT conf))]), w).
Proof. unfold four_oh_four, bind, lift, ret. now rewrite cache_control_text. Qed.

Lemma os_path_join_absolute a p : os_path_join a (String "/" p) = String "/" p.
Proof. reflexivity. Qed.

(** [hash_] never produces a digest: the format string has four
    conversions and receives one argument. *)
Lemma hash_raises img_path action width height :
  hash_ lib img_path action width height = Raise TypeError.
Proof. reflexivity. Qed.

Lemma cache_key_raises img_path action width height :
  cache_key lib img_path action width height = Raise TypeError.
Proof. reflexivity. Qed.

Lemma thumbnail_raises img_path width height w :
  thumbnail lib img_path width height w = (Raise (UnboundLocalError "img"), w).
Proof. reflexivity. Qed.

Lemma resize_raises img_path width height w :
  resize lib img_path width height w = (Raise (UnboundLocalError "img"), w).
Proof. reflexivity. Qed.

Lemma render_and_save_raises img_path width height w :
  render_and_save lib img_path width height w = (Raise (NameError "action"), w).
Proof. reflexivity. Qed.

Lemma get_cached_raises source_path w :
  get_cached conf lib source_path w = (Raise (NameError "img_meta"), w).
Proof. reflexivity. Qed.

(** The branch for a cache miss asks the storage whether the source
    exists and then raises, before anything is saved or recorded. *)
Lemma get_uncached_raises source_path key w :
  exists e,
    get_uncached conf lib source_path key w
    = (Raise e, World (storage w) (cache w) (log w ++ [FsExists source_path])).
Proof.
  cbv [get_uncached get_uncached_in bind fs_exists emit]. cbn [storage cache log].
  destruct (bool_decide (is_Some (storage w !! source_path))); eexists; reflexivity.
Qed.

(** A path that passes both path checks gets no further than the
    lookup of [self.allowed_actions]. *)
Lemma get_past_validation action geometry source_path w :
  let joined := os_path_join (THUMBNAIL_SOURCE_PATH conf) source_path in
  startswith "/" joined = false ->
  re_match dotdot_re joined = None ->
  get conf lib action geometry source_path w
  = (Raise (AttributeError "allowed_actions"), w).
Proof. cbv zeta. intros H1 H2. unfold get. now rewrite H1, H2. Qed.

Lemma get_rejects_root action geometry source_path w :
  startswith "/" (os_path_join (THUMBNAIL_SOURCE_PATH conf) source_path) = true ->
  get conf lib action geometry source_path w = four_oh_four conf w.
Proof. intros H. unfold get. now rewrite H. Qed.

Lemma get_rejects_leading_dotdot action geometry source_path w :
  is_some (re_match dotdot_re (os_path_join (THUMBNAIL_SOURCE_PATH conf) source_path))
  = true ->
  get conf lib action geometry source_path w = four_oh_four conf w.
Proof. intros H. unfold get. rewrite H. now destruct (startswith _ _). Qed.

(** What [get] does on any request: the two path checks decide between
    a 404 and the failed lookup of [self.allowed_actions]. *)
Lemma get_characterised action geometry source_path w :
  let joined := os_path_join (THUMBNAIL_SOURCE_PATH conf) source_path in
  get conf lib action geometry source_path w
  = if startswith "/" joined || is_some (re_match dotdot_re joined)
    then four_oh_four conf w
    else (Raise (AttributeError "allowed_actions"), w).
Proof.
  cbv zeta. unfold get.
  destruct (startswith _ _); [reflexivity|].
  destruct (is_some _); reflexivity.
Qed.

(** Whatever the request, [get] leaves storage, cache and log as they
    were, and either answers 404 or raises [AttributeError]. *)
Lemma get_outcome action geometry source_path w :
  get conf lib action geometry source_path w = four_oh_four conf w
  \/ get conf lib action geometry source_path w
     = (Raise (AttributeError "allowed_actions"), w).
Proof.
  unfold get.
  destruct (startswith _ _); [now left|].
  destruct (is_some _); [now left|]. now right.
Qed.

(** *** The cache-miss branch under any binding of the open names *)

Lemma load_global_in_world ns name w : snd (load_global_in ns name w) = w.
Proof.
  unfold load_global_in, load_global.
  destruct (binding name (bound_globals ns)); [reflexivity|].
  now destruct (existsb _ _).
Qed.

(** As written, [getattr(self, action)(...)] raises whatever the
    action is. *)
Lemma call_action_raises action img_path width height w :
  exists e, call_action lib action img_path width height w = (Raise e, w).
Proof.
  destruct action as [| |name| |]; try (eexists; reflexivity).
  unfold call_action, self_getattr, bind.
  destruct (existsb _ _); [|eexists; reflexivity].
  cbn [ret].
  destruct (name =? "thumbnail")%string.
  { destruct width; try (eexists; reflexivity).
    destruct height; eexists; reflexivity. }
  destruct (name =? "resize")%string.
  { destruct width; try (eexists; reflexivity).
    destruct height; eexists; reflexivity. }
  destruct (name =? "render_and_save")%string; eexists; reflexivity.
Qed.

Lemma call_action_in_world ns action img_path width height w :
  snd (call_action_in lib ns action img_path width height w) = w.
Proof.
  unfold call_action_in.
  destruct action as [| |name| |]; try reflexivity.
  destruct (binding name (bound_methods ns)) as [[f|f|f]|]; try reflexivity.
  now destruct (call_action_raises (PStr name) img_path width height w) as [e ->].
Qed.

Lemma respond_in_world ns name args w :
  snd (respond_in conf ns name args w) = w.
Proof.
  unfold respond_in.
  destruct (binding name (bound_methods ns)) as [[f|f|f]|]; try reflexivity.
  unfold self_getattr, bind. destruct (existsb _ _); [|reflexivity].
  cbn [ret]. unfold call_responder.
  repeat match goal with
         | |- context [match ?x with _ => _ end] => destruct x; try reflexivity
         end;
    now rewrite four_oh_four_response.
Qed.

(** [render_and_save] under any binding: the cache is not touched, and
    a result means that the write succeeded and the storage holds the
    rendered bytes. *)
Lemma render_and_save_in_effect ns img_path width height w :
  let out := render_and_save_in lib ns img_path width height w in
  cache (snd out) = cache w
  /\ match fst out with
     | Ok (rendered_path, raw_data) =>
         let name := get_available_name lib (storage w) rendered_path in
         save_failure lib (storage w) name raw_data = None
         /\ snd out = World (<[name := raw_data]> (storage w)) (cache w)
                        (log w ++ [FsSave rendered_path raw_data])
     | Raise _ => True
     end.
Proof.
  cbv zeta.
  destruct (render_and_save_in lib ns img_path width height w) as [r w'] eqn:E.
  cbn [fst snd]. revert E. unfold render_and_save_in, bind.
  pose proof (load_global_in_world ns "action" w) as Ha.
  destruct (load_global_in ns "action" w) as [[action|e] w1]; cbn [snd] in Ha; subst w1;
    [|intros E; inversion E; now split].
  unfold lift.
  destruct (hash_in lib ns img_path action width height) as [action_hash|e];
    [|intros E; inversion E; now split].
  pose proof (call_action_in_world ns action img_path width height w) as Hc.
  destruct (call_action_in lib ns action img_path width height w) as [[raw_data|e] w1];
    cbn [snd] in Hc; subst w1; [|intros E; inversion E; now split].
  unfold fs_save, bind, emit. cbn [storage cache log].
  destruct (save_failure lib (storage w) _ raw_data) as [[e left_behind]|] eqn:Hsave;
    intros E; inversion E; subst; cbn [cache]; [now split|].
  split; [reflexivity|]. split; [exact Hsave|reflexivity].
Qed.

(** Lines 94-106 under any binding, outcome by outcome. *)
Lemma get_uncached_in_cases ns source_path key w :
  let checked := World (storage w) (cache w) (log w ++ [FsExists source_path]) in
  let out := get_uncached_in conf lib ns source_path key w in
  match storage w !! source_path with
  | Some _ =>
      (exists e, out = (Raise e, checked))
      \/ exists width height,
           load_global_in ns "width" checked = (Ok width, checked)
           /\ load_global_in ns "height" checked = (Ok height, checked)
           /\ match render_and_save_in lib ns source_path width height checked with
              | (Raise e, after) => out = (Raise e, after)
              | (Ok (rendered_path, raw_data), after) =>
                  let record := json_dumps lib (SourceMeta rendered_path false) in
                  match fst (respond_in conf ns "two_hundred" [raw_data] after) with
                  | Raise e => out = (Raise e, after)
                  | Ok response =>
                      out = (Ok response,
                             World (storage after) (<[key := record]> (cache w))
                               (log after
                                ++ [CacheSet key record (LAZYTHUMB_CACHE_TIMEOUT conf)]))
                  end
              end
  | None =>
      let record := json_dumps lib (SourceMeta "" true) in
      match fst (respond_in conf ns "four_hundred" [] checked) with
      | Raise e => out = (Raise e, checked)
      | Ok response =>
          out = (Ok response,
                 World (storage w) (<[key := record]> (cache w))
                   (log checked
                    ++ [CacheSet key record (LAZYTHUMB_404_CACHE_TIMEOUT conf)]))
      end
  end.
Proof.
  cbv zeta. unfold get_uncached_in, bind at 1 2, fs_exists, bind, emit.
  cbn [storage cache log].
  set (checked := World (storage w) (cache w) (log w ++ [FsExists source_path])).
  destruct (storage w !! source_path) as [data|] eqn:Hsrc.
  - rewrite (bool_decide_eq_true_2 _ (mk_is_Some _ _ eq_refl)).
    pose proof (load_global_in_world ns "width" checked) as Hw.
    destruct (load_global_in ns "width" checked) as [[width|e] w1];
      cbn [snd] in Hw; subst w1; [|left; eauto].
    pose proof (load_global_in_world ns "height" checked) as Hh.
    destruct (load_global_in ns "height" checked) as [[height|e] w1];
      cbn [snd] in Hh; subst w1; [|left; eauto].
    right. exists width, height. split; [reflexivity|]. split; [reflexivity|].
    pose proof (render_and_save_in_effect ns source_path width height checked) as [Hc _].
    destruct (render_and_save_in lib ns source_path width height checked)
      as [[[rendered_path raw_data]|e] after]; [|reflexivity].
    cbn [fst snd] in Hc |- *.
    pose proof (respond_in_world ns "two_hundred" [raw_data] after) as Hr.
    destruct (respond_in conf ns "two_hundred" [raw_data] after) as [[response|e] w1];
      cbn [snd] in Hr; subst w1; cbn [fst]; [|reflexivity].
    unfold ret, cache_set, bind, emit. cbn [storage cache log]. now rewrite Hc.
  - rewrite (bool_decide_eq_false_2 _ is_Some_None).
    pose proof (respond_in_world ns "four_hundred" [] checked) as Hr.
    destruct (respond_in conf ns "four_hundred" [] checked) as [[response|e] w1];
      cbn [snd] in Hr; subst w1; cbn [fst]; reflexivity.
Qed.

(** A request that raises on a cache miss leaves the cache as it was. *)
Lemma get_uncached_in_keeps_cache ns source_path key w :
  match fst (get_uncached_in conf lib ns source_path key w) with
  | Raise _ => cache (snd (get_uncached_in conf lib ns source_path key w)) = cache w
  | Ok _ => True
  end.
Proof.
  pose proof (get_uncached_in_cases ns source_path key w) as H. cbv zeta in H.
  destruct (storage w !! source_path).
  - destruct H as [[e ->] | (width & height & _ & _ & H)]; [reflexivity|].
    match type of H with
    | context [render_and_save_in lib ns source_path width height ?c] =>
        pose proof (render_and_save_in_effect ns source_path width height c) as [Hc _]
    end.
    destruct (render_and_save_in lib ns source_path width height _)
      as [[[rendered_path raw_data]|e] after]; cbn [fst snd cache] in Hc.
    + destruct (fst (respond_in conf ns "two_hundred" [raw_data] after));
        rewrite H; cbn [fst snd]; auto.
    + rewrite H. exact Hc.
  - destruct (fst (respond_in conf ns "four_hundred" [] _));
      rewrite H; cbn [fst snd cache]; auto.
Qed.

End ViewFacts.

Section ViewClaims.

Variable lib : library.

(** C1. The thumbnail action at width 100, height unset. As written the
    method raises [UnboundLocalError] on its first statement, whatever
    the source. From the opened 200x100 image on, the height is derived
    as 50 and the image is resized to 100x50, but the crop box is
    (0, 0, 100, 100): the result is 100x100, not 100x50. *)
Theorem thumbnail_200x100 :
  (forall img_path w,
     thumbnail lib img_path 100 None w
     = (Raise (UnboundLocalError "img"), w))
  /\ thumbnail_opened Sample.source_200x100 100 None
     = Ok (Cropped (Resized Sample.source_200x100 100 50) 0 0 100 100)
  /\ size (Cropped (Resized Sample.source_200x100 100 50) 0 0 100 100) = (100, 100).
Proof. repeat split. Qed.

(** The clamp compares the width with the source height and the height
    with the source width: a width of 300 on the 200x100 source is cut
    to 100 while the derived height 150 stays above the source's 100. *)
Lemma thumbnail_clamp_swapped :
  thumbnail_opened Sample.source_200x100 300 None
  = Ok (Cropped (Resized Sample.source_200x100 100 150) 0 0 100 100).
Proof. reflexivity. Qed.

(** C2. A request with a safe path never reaches the cache, whatever
    the cache holds: it raises [AttributeError] on
    [self.allowed_actions] instead of answering 404. The branch for a
    cached record, were it reached, reads the undefined name
    [img_meta] and raises as well; it never consults [was_404]. *)
Theorem negative_hit_raises :
  (forall w,
     get Sample.conf lib "thumbnail" "100" "missing.jpg" w
     = (Raise (AttributeError "allowed_actions"), w))
  /\ (forall conf source_path w,
        get_cached conf lib source_path w = (Raise (NameError "img_meta"), w)).
Proof. split; reflexivity. Qed.

(** C3. Validation. On every request the two path checks alone decide
    the outcome: a joined path that begins with '/' or with '../' is
    answered 404 with no access to storage or cache, and every other
    request raises [AttributeError] on [self.allowed_actions], the
    action being allowed or not. A '../' further inside the joined
    path is not detected, so neither such a request nor one for an
    unknown action is answered 404. *)
Theorem validation_outcomes :
  (forall conf action geometry source_path w,
     let joined := os_path_join (THUMBNAIL_SOURCE_PATH conf) source_path in
     get conf lib action geometry source_path w
     = if startswith "/" joined || is_some (re_match dotdot_re joined)
       then (Ok (Response 404 "" "image/jpeg"
                   [("Cache-Control",
                     "public,max-age="
                     ++ str_of_int (THUMBNAIL_404_CACHE_TIMEOUT conf))]), w)
       else (Raise (AttributeError "allowed_actions"), w))
  /\ (forall conf action geometry p w,
        get conf lib action geometry (String "/" p) w = four_oh_four conf w)
  /\ (forall action geometry p w,
        get Sample.conf_bare_root lib action geometry ("../" ++ p) w
        = four_oh_four Sample.conf_bare_root w)
  /\ (forall action geometry w,
        get Sample.conf lib action geometry "../../etc/passwd" w
        = (Raise (AttributeError "allowed_actions"), w))
  /\ (forall action geometry w,
        get Sample.conf_bare_root lib action geometry "a/../../etc/passwd" w
        = (Raise (AttributeError "allowed_actions"), w))
  /\ (forall w,
        get Sample.conf lib "no_such_action" "100" "a.jpg" w
        = (Raise (AttributeError "allowed_actions"), w)).
Proof.
  repeat split; intros; try reflexivity.
  subst joined. rewrite get_characterised. cbv zeta.
  now rewrite four_oh_four_response.
Qed.

(** C4. A request whose record is cached while the asset is gone:
    whatever the storage and the cache hold, [get] raises
    [AttributeError] on [self.allowed_actions]; and [render_and_save],
    which the handler for the missing asset would call, raises
    [NameError] on [action] with nothing saved. *)
Theorem missing_asset_raises :
  (forall w,
     get Sample.conf lib "resize" "100x100" "a.jpg" w
     = (Raise (AttributeError "allowed_actions"), w))
  /\ (forall img_path width height w,
        render_and_save lib img_path width height w = (Raise (NameError "action"), w)).
Proof. split; reflexivity. Qed.

(** C7. [hash_] and [cache_key] produce no key: on every input they
    raise [TypeError], because the format string with four conversions
    is applied to the path alone. *)
Theorem key_derivation_raises img_path action width height :
  hash_ lib img_path action width height = Raise TypeError
  /\ cache_key lib img_path action width height = Raise TypeError.
Proof. split; reflexivity. Qed.

(** C9. The record follows the persisted render. Whatever the names
    that the code leaves open are bound to:
    - [render_and_save] never touches the cache, and when it returns,
      the write has succeeded and the storage holds the rendered bytes
      under the name the storage chose, the save being the last access
      logged;
    - on a cache miss for a source that exists, [get] either raises
      before rendering, or raises exactly what [render_and_save] raised
      (a failed action or a failed write) and ends in the world that
      [render_and_save] left, whose cache is the one it started from,
      or raises what [two_hundred] raised, or answers and ends with the
      positive record for the rendered path set under the key, the
      [cache.set] logged after the save;
    - for a source that does not exist nothing is saved and the record
      is the negative one;
    - as the file is written, [get] leaves the world as it found it on
      every request. *)
Theorem record_follows_persisted_render conf ns :
  (forall img_path width height w,
     let out := render_and_save_in lib ns img_path width height w in
     cache (snd out) = cache w
     /\ match fst out with
        | Ok (rendered_path, raw_data) =>
            let name := get_available_name lib (storage w) rendered_path in
            save_failure lib (storage w) name raw_data = None
            /\ snd out = World (<[name := raw_data]> (storage w)) (cache w)
                           (log w ++ [FsSave rendered_path raw_data])
        | Raise _ => True
        end)
  /\ (forall source_path key w,
        let checked := World (storage w) (cache w) (log w ++ [FsExists source_path]) in
        let out := get_uncached_in conf lib ns source_path key w in
        match storage w !! source_path with
        | Some _ =>
            (exists e, out = (Raise e, checked))
            \/ exists width height,
                 load_global_in ns "width" checked = (Ok width, checked)
                 /\ load_global_in ns "height" checked = (Ok height, checked)
                 /\ match render_and_save_in lib ns source_path width height checked with
                    | (Raise e, after) => out = (Raise e, after)
                    | (Ok (rendered_path, raw_data), after) =>
                        let record := json_dumps lib (SourceMeta rendered_path false) in
                        match fst (respond_in conf ns "two_hundred" [raw_data] after) with
                        | Raise e => out = (Raise e, after)
                        | Ok response =>
                            out = (Ok response,
                                   World (storage after) (<[key := record]> (cache w))
                                     (log after
                                      ++ [CacheSet key record
                                            (LAZYTHUMB_CACHE_TIMEOUT conf)]))
                        end
                    end
        | None =>
            let record := json_dumps lib (SourceMeta "" true) in
            match fst (respond_in conf ns "four_hundred" [] checked) with
            | Raise e => out = (Raise e, checked)
            | Ok response =>
                out = (Ok response,
                       World (storage w) (<[key := record]> (cache w))
                         (log checked
                          ++ [CacheSet key record (LAZYTHUMB_404_CACHE_TIMEOUT conf)]))
            end
        end)
  /\ (forall source_path key w,
        match fst (get_uncached_in conf lib ns source_path key w) with
        | Raise _ => cache (snd (get_uncached_in conf lib ns source_path key w)) = cache w
        | Ok _ => True
        end)
  /\ (forall action geometry source_path w,
        snd (get conf lib action geometry source_path w) = w).
Proof.
  split; [|split; [|split]].
  - intros img_path width height w. apply render_and_save_in_effect.
  - intros source_path key w. apply get_uncached_in_cases.
  - intros source_path key w. apply get_uncached_in_keeps_cache.
  - intros action geometry source_path w.
    destruct (get_outcome conf lib action geometry source_path w) as [-> | ->];
      [now rewrite four_oh_four_response | reflexivity].
Qed.

(** Each outcome is met. With every open name bound and a source in the
    storage, the render is saved and then recorded. *)
Lemma bound_request_saves_then_records :
  get_uncached_in Sample.conf Sample.lib Sample.bound "a.jpg" "k" Sample.stored
  = (Ok (Response 200 "JPEG" "image/jpeg" []),
     World (<["ab/cd/abcdef" := "JPEG"]> (storage Sample.stored))
       (<["k" := "ab/cd/abcdef:ok"]> ∅)
       [FsExists "a.jpg"; FsSave "ab/cd/abcdef" "JPEG";
        CacheSet "k" "ab/cd/abcdef:ok" (LAZYTHUMB_CACHE_TIMEOUT Sample.conf)]).
Proof. reflexivity. Qed.

(** On a full disk the write raises, the request raises with it, and
    the cache stays empty. *)
Lemma failed_write_fails_request :
  get_uncached_in Sample.conf Sample.lib_full_disk Sample.bound "a.jpg" "k"
    Sample.stored
  = (Raise IOError,
     World (storage Sample.stored) ∅
       [FsExists "a.jpg"; FsSave "ab/cd/abcdef" "JPEG"]).
Proof. reflexivity. Qed.

(** With the action [resize] of the file the render raises before
    anything is saved. *)
Lemma failed_render_fails_request :
  get_uncached_in Sample.conf Sample.lib Sample.bound_resize "a.jpg" "k"
    Sample.stored
  = (Raise (UnboundLocalError "img"),
     World (storage Sample.stored) ∅ [FsExists "a.jpg"]).
Proof. reflexivity. Qed.

(** A source that is not in the storage gets the negative record. *)
Lemma bound_request_records_missing_source :
  get_uncached_in Sample.conf Sample.lib Sample.bound "b.jpg" "k" Sample.stored
  = (Ok (Response 400 "" "image/jpeg" []),
     World (storage Sample.stored) (<["k" := ":404"]> ∅)
       [FsExists "b.jpg";
        CacheSet "k" ":404" (LAZYTHUMB_404_CACHE_TIMEOUT Sample.conf)]).
Proof. reflexivity. Qed.

End ViewClaims.

(** * Further properties *)

(** ** What the two geometry patterns accept *)

Section PatternInversion.

Lemma is_digit_value c :
  is_digit c = true -> 0 <= Z.of_nat (nat_of_ascii c) - 48 <= 9.
Proof.
  unfold is_digit. intros H. apply andb_prop in H as [H1 H2].
  apply Nat.leb_le in H1. apply Nat.leb_le in H2. lia.
Qed.

Lemma int_of_digits_acc_some s : forall acc,
  all_digits s = true -> 0 <= acc ->
  exists z, int_of_digits_acc s acc = Some z /\ acc <= z.
Proof.
  induction s as [|c s IH]; intros acc Hd Hacc.
  - exists acc. split; [reflexivity | lia].
  - simpl in Hd. apply andb_prop in Hd as [Hc Hd].
    pose proof (is_digit_value c Hc) as Hv.
    cbn [int_of_digits_acc]. rewrite Hc.
    destruct (IH (10 * acc + (Z.of_nat (nat_of_ascii c) - 48)) Hd) as (z & Hz & Hle);
      [lia|].
    exists z. split; [exact Hz | lia].
Qed.

(** [int] succeeds on a non-empty run of digits, with a non-negative
    value. *)
Lemma int_of_str_digits s :
  all_digits s = true -> s <> "" -> exists z, int_of_str s = Ok z /\ 0 <= z.
Proof.
  intros Hd Hne. destruct (int_of_digits_acc_some s 0 Hd) as (z & Hz & Hle); [lia|].
  exists z. split; [|exact Hle].
  unfold int_of_str. destruct s; [congruence|]. now rewrite Hz.
Qed.

(** What a successful [\d+] consumed. *)
Lemma plus_digit_inv fuel : forall k p s g m,
  plus_loop (rmatch RDigit) k fuel (MState p s g) = Some m ->
  exists ds tl,
    s = ds ++ tl /\ ds <> "" /\ all_digits ds = true
    /\ k (MState (p + String.length ds) tl g) = Some m.
Proof.
  induction fuel as [|fuel IH]; intros k p s g m H; [discriminate|].
  rewrite plus_loop_step in H. destruct s as [|c s]; [discriminate|].
  rewrite rmatch_digit_cons in H. destruct (is_digit c) eqn:Hc; [|discriminate].
  cbn [pos] in H.
  replace (p <? S p)%nat with true in H by (symmetry; apply Nat.ltb_lt; lia).
  destruct (plus_loop (rmatch RDigit) k fuel (MState (S p) s g)) as [m'|] eqn:E.
  - inversion H; subst m'. apply IH in E as (ds & tl & -> & Hne & Hd & Hk).
    exists (String c ds), tl. repeat split.
    + discriminate.
    + simpl. now rewrite Hc, Hd.
    + replace (p + String.length (String c ds))%nat
        with (S p + String.length ds)%nat by (simpl; lia).
      exact Hk.
  - exists (String c ""), s. repeat split.
    + discriminate.
    + simpl. now rewrite Hc.
    + replace (p + String.length (String c ""))%nat with (S p) by (simpl; lia).
      exact H.
Qed.

Lemma rmatch_eol_inv p s g st :
  rmatch REol (MState p s g) Some = Some st ->
  st = MState p s g /\ is_line_end s.
Proof.
  cbn [rmatch rest]. destruct s as [|c [|c' s]]; intros H.
  - inversion H. split; [reflexivity | now left].
  - destruct (Ascii.eqb c newline) eqn:E; [|discriminate].
    apply Ascii.eqb_eq in E. subst c. inversion H. split; [reflexivity | now right].
  - discriminate.
Qed.

(** [\d+$] *)
Lemma digits_to_end_inv p s g st :
  rmatch (RSeq (RPlus RDigit) REol) (MState p s g) Some = Some st ->
  exists dh nl,
    s = dh ++ nl /\ dh <> "" /\ all_digits dh = true /\ is_line_end nl
    /\ grp st = g.
Proof.
  rewrite rmatch_seq, rmatch_plus. intros H.
  apply plus_digit_inv in H as (dh & nl & -> & Hne & Hd & Hk).
  apply rmatch_eol_inv in Hk as [-> Hnl].
  exists dh, nl. repeat split; assumption.
Qed.

(** [(?:x\d+)?$], the part of the width pattern after the group. *)
Lemma width_tail_inv p s g st :
  rmatch (RSeq (ROpt (RSeq (RChr "x") (RPlus RDigit))) REol) (MState p s g) Some
  = Some st ->
  grp st = g
  /\ exists nl, is_line_end nl
       /\ (s = nl \/ exists dh, dh <> "" /\ all_digits dh = true
                                /\ s = "x" ++ dh ++ nl).
Proof.
  rewrite rmatch_seq, rmatch_opt, rmatch_seq. intros H.
  destruct (rmatch (RChr "x") (MState p s g)
              (fun st' => rmatch (RPlus RDigit) st' (fun st'0 => rmatch REol st'0 Some)))
    as [m|] eqn:E.
  - inversion H; subst m. clear H.
    destruct s as [|c s]; [discriminate|].
    cbn [rmatch rest] in E. destruct (Ascii.eqb "x" c) eqn:Ec; [|discriminate].
    apply Ascii.eqb_eq in Ec. subst c.
    change (rmatch (RSeq (RPlus RDigit) REol) (advance (MState p (String "x" s) g) s) Some
            = Some st) in E.
    apply digits_to_end_inv in E as (dh & nl & -> & Hne & Hd & Hnl & Hg).
    split; [exact Hg|]. exists nl. split; [exact Hnl|]. right. exists dh. auto.
  - apply rmatch_eol_inv in H as [-> Hnl].
    split; [reflexivity|]. exists s. split; [exact Hnl | now left].
Qed.

(** [x(\d+)$], the part of the height pattern after the optional width. *)
Lemma height_tail_inv p s g st :
  rmatch (RSeq (RChr "x") (RSeq (RGroup (RPlus RDigit)) REol)) (MState p s g) Some
  = Some st ->
  exists dh nl,
    s = "x" ++ dh ++ nl /\ dh <> "" /\ all_digits dh = true /\ is_line_end nl
    /\ grp st = Some dh.
Proof.
  rewrite rmatch_seq. intros H.
  destruct s as [|c s]; [discriminate|].
  cbn [rmatch rest] in H. destruct (Ascii.eqb "x" c) eqn:Ec; [|discriminate].
  apply Ascii.eqb_eq in Ec. subst c.
  unfold advance in H. cbn [pos grp] in H.
  apply plus_digit_inv in H as (dh & nl & -> & Hne & Hd & Hk).
  cbn [pos rest] in Hk. apply rmatch_eol_inv in Hk as [-> Hnl].
  exists dh, nl. repeat split; try assumption.
  cbn [grp]. f_equal.
  replace (S p + String.length dh - S p)%nat with (String.length dh) by lia.
  apply substring_prefix.
Qed.

Lemma width_re_inv s st :
  re_match width_re s = Some st ->
  exists dw nl,
    dw <> "" /\ all_digits dw = true /\ is_line_end nl /\ grp st = Some dw
    /\ (s = dw ++ nl
        \/ exists dh, dh <> "" /\ all_digits dh = true /\ s = dw ++ "x" ++ dh ++ nl).
Proof.
  rewrite width_re_unfold. intros H.
  apply plus_digit_inv in H as (dw & tl & Hs & Hne & Hd & Hk).
  cbn [pos rest] in Hk. apply width_tail_inv in Hk as (Hg & nl & Hnl & Htl).
  exists dw, nl. repeat split; try assumption.
  - rewrite Hg. f_equal.
    replace (0 + String.length dw - 0)%nat with (String.length dw) by lia.
    rewrite Hs. apply substring_prefix.
  - destruct Htl as [-> | (dh & Hdne & Hdd & ->)]; [now left|].
    right. exists dh. auto.
Qed.

Lemma height_re_inv s st :
  re_match height_re s = Some st ->
  exists dh nl,
    dh <> "" /\ all_digits dh = true /\ is_line_end nl /\ grp st = Some dh
    /\ (s = "x" ++ dh ++ nl
        \/ exists dw, dw <> "" /\ all_digits dw = true /\ s = dw ++ "x" ++ dh ++ nl).
Proof.
  rewrite height_re_unfold. cbv zeta. intros H.
  destruct (plus_loop (rmatch RDigit)
              (fun st' => rmatch (RSeq (RChr "x") (RSeq (RGroup (RPlus RDigit)) REol))
                            st' Some)
              (S (String.length s)) (MState 0 s None)) as [m|] eqn:E.
  - inversion H; subst m. clear H.
    apply plus_digit_inv in E as (dw & tl & -> & Hne & Hd & Hk).
    apply height_tail_inv in Hk as (dh & nl & -> & Hdne & Hdd & Hnl & Hg).
    exists dh, nl. repeat split; try assumption.
    right. exists dw. auto.
  - apply height_tail_inv in H as (dh & nl & -> & Hdne & Hdd & Hnl & Hg).
    exists dh, nl. repeat split; try assumption. now left.
Qed.

End PatternInversion.

(** ** geometry_parse on arbitrary input *)

Section GeometryParseFacts.

Lemma dim_of_width_match g :
  exists w, dim_of_match (re_match width_re g) = Ok w /\ nonneg_dim w
            /\ is_some w = is_some (re_match width_re g).
Proof.
  destruct (re_match width_re g) as [st|] eqn:E.
  - apply width_re_inv in E as (dw & nl & Hne & Hd & _ & Hg & _).
    destruct (int_of_str_digits dw Hd Hne) as (z & Hz & Hpos).
    exists (Some z). unfold dim_of_match, group1. rewrite Hg. cbn [rbind].
    rewrite Hz. cbn [rbind]. repeat split. exact Hpos.
  - exists None. repeat split.
Qed.

Lemma dim_of_height_match g :
  exists h, dim_of_match (re_match height_re g) = Ok h /\ nonneg_dim h
            /\ is_some h = is_some (re_match height_re g).
Proof.
  destruct (re_match height_re g) as [st|] eqn:E.
  - apply height_re_inv in E as (dh & nl & Hne & Hd & _ & Hg & _).
    destruct (int_of_str_digits dh Hd Hne) as (z & Hz & Hpos).
    exists (Some z). unfold dim_of_match, group1. rewrite Hg. cbn [rbind].
    rewrite Hz. cbn [rbind]. repeat split. exact Hpos.
  - exists None. repeat split.
Qed.

(** The two outcomes of [geometry_parse]. *)
Lemma geometry_parse_cases action g exc :
  geometry_parse action g exc = Raise exc
  \/ exists w h,
       geometry_parse action g exc = Ok (w, h) /\ nonneg_dim w /\ nonneg_dim h.
Proof.
  unfold geometry_parse.
  destruct (dim_of_width_match g) as (w & Hw & Pw & Sw).
  destruct (dim_of_height_match g) as (h & Hh & Ph & Sh).
  rewrite Hw, Hh, <- Sw, <- Sh. cbn [rbind].
  destruct (negb (is_some w || is_some h)); [now left|]. right.
  destruct (negb (dim_truthy (dim_or w h)) && negb (action =? "thumbnail")%string).
  - exists (dim_or w (dim_or w h)), (dim_or w h). split; [reflexivity|].
    unfold dim_or. destruct (dim_truthy w); auto.
  - exists w, h. auto.
Qed.

(** X1. [geometry_parse] raises nothing but the supplied exception: on
    every action and every string it either raises [exc] or returns a
    pair whose components are absent or non-negative integers; the
    conversion of a matched group by [int] cannot fail. *)
Theorem geometry_parse_raises_only_exc action g exc :
  geometry_parse action g exc = Raise exc
  \/ exists w h,
       geometry_parse action g exc = Ok (w, h) /\ nonneg_dim w /\ nonneg_dim h.
Proof. apply geometry_parse_cases. Qed.

(** X2. [geometry_parse] accepts only the three documented shapes, each
    possibly followed by one newline: a run of digits, two runs of
    digits around an 'x', or an 'x' and a run of digits. *)
Theorem geometry_parse_accepts_only action g exc w h :
  geometry_parse action g exc = Ok (w, h) ->
  exists nl, is_line_end nl
    /\ ((exists dw, dw <> "" /\ all_digits dw = true /\ g = dw ++ nl)
        \/ (exists dw dh, dw <> "" /\ all_digits dw = true
                          /\ dh <> "" /\ all_digits dh = true
                          /\ g = dw ++ "x" ++ dh ++ nl)
        \/ (exists dh, dh <> "" /\ all_digits dh = true /\ g = "x" ++ dh ++ nl)).
Proof.
  unfold geometry_parse.
  destruct (re_match width_re g) as [sw|] eqn:Ew.
  - intros _. apply width_re_inv in Ew as (dw & nl & Hne & Hd & Hnl & _ & Hs).
    exists nl. split; [exact Hnl|].
    destruct Hs as [-> | (dh & Hdne & Hdd & ->)].
    + left. exists dw. auto.
    + right. left. exists dw, dh. auto.
  - destruct (re_match height_re g) as [sh|] eqn:Eh.
    + intros _. apply height_re_inv in Eh as (dh & nl & Hne & Hd & Hnl & _ & Hs).
      exists nl. split; [exact Hnl|].
      destruct Hs as [-> | (dw & Hdne & Hdd & ->)].
      * right. right. exists dh. auto.
      * right. left. exists dw, dh. auto.
    + cbn [is_some orb negb]. discriminate.
Qed.

(** X2, witness. *)
Lemma geometry_parse_accepts_only_witness :
  exists nl, is_line_end nl
    /\ ((exists dw, dw <> "" /\ all_digits dw = true /\ "640x480" = dw ++ nl)
        \/ (exists dw dh, dw <> "" /\ all_digits dw = true
                          /\ dh <> "" /\ all_digits dh = true
                          /\ "640x480" = dw ++ "x" ++ dh ++ nl)
        \/ (exists dh, dh <> "" /\ all_digits dh = true /\ "640x480" = "x" ++ dh ++ nl)).
Proof.
  apply (geometry_parse_accepts_only "resize" "640x480" ValueError (Some 640) (Some 480)).
  reflexivity.
Defined.

(** X4. Whenever the parsed geometry has a non-zero dimension the
    action makes no difference: every action gets the pair that
    [thumbnail] gets, a missing dimension staying absent. *)
Theorem geometry_parse_ignores_action action g exc w h :
  geometry_parse "thumbnail" g exc = Ok (w, h) ->
  dim_truthy w || dim_truthy h = true ->
  geometry_parse action g exc = Ok (w, h).
Proof.
  unfold geometry_parse.
  destruct (dim_of_width_match g) as (w0 & Hw & _ & _).
  destruct (dim_of_height_match g) as (h0 & Hh & _ & _).
  rewrite Hw, Hh. cbn [rbind].
  destruct (negb (is_some (re_match width_re g) || is_some (re_match height_re g)));
    [discriminate|].
  rewrite andb_false_r. intros H. inversion H; subst w0 h0. clear H.
  intros Ht.
  replace (dim_truthy (dim_or w h)) with true; [reflexivity|].
  unfold dim_or. destruct (dim_truthy w) eqn:E; [now rewrite E | exact (eq_sym Ht)].
Qed.

(** X4, witness. *)
Lemma geometry_parse_ignores_action_witness :
  geometry_parse "scale" "x480" ValueError = Ok (None, Some 480).
Proof.
  apply (geometry_parse_ignores_action "scale" "x480" ValueError None (Some 480));
    reflexivity.
Defined.

(** X5. Building a geometry and parsing it back returns the dimensions,
    for every action and all positive W and H; the geometry built from
    two absent dimensions is "xNone", which is rejected. *)
Theorem build_then_parse_is_identity action exc (W H : positive) :
  geometry_parse action (build_geometry (Some (Z.pos W)) None) exc
  = Ok (Some (Z.pos W), None)
  /\ geometry_parse action (build_geometry (Some (Z.pos W)) (Some (Z.pos H))) exc
     = Ok (Some (Z.pos W), Some (Z.pos H))
  /\ geometry_parse action (build_geometry None (Some (Z.pos H))) exc
     = Ok (None, Some (Z.pos H))
  /\ geometry_parse action (build_geometry None None) exc = Raise exc.
Proof.
  rewrite build_geometry_w, build_geometry_wxh, build_geometry_xh.
  rewrite geometry_parse_w, geometry_parse_wxh, geometry_parse_xh.
  repeat split.
Qed.

End GeometryParseFacts.

(** ** The accepted shapes, leading zeros and a final newline included *)

Section AcceptedShapes.

Variables dw dh nl : string.
Hypothesis dw_digits : all_digits dw = true.
Hypothesis dh_digits : all_digits dh = true.
Hypothesis dw_nonempty : dw <> "".
Hypothesis dh_nonempty : dh <> "".
Hypothesis nl_end : is_line_end nl.

Lemma line_end_no_digit :
  match nl with String c _ => is_digit c | EmptyString => false end = false.
Proof. destruct nl_end as [-> | ->]; reflexivity. Qed.

Lemma rmatch_eol_line_end p g : rmatch REol (MState p nl g) Some = Some (MState p nl g).
Proof. destruct nl_end as [-> | ->]; reflexivity. Qed.

Lemma rmatch_x_line_end p g k : rmatch (RChr "x") (MState p nl g) k = None.
Proof. destruct nl_end as [-> | ->]; reflexivity. Qed.

Lemma digits_to_line_end p g :
  rmatch (RSeq (RPlus RDigit) REol) (MState p (dh ++ nl) g) Some
  = Some (MState (p + String.length dh) nl g).
Proof.
  rewrite rmatch_seq, rmatch_plus.
  eapply plus_digit_greedy with (ds := dh) (tl := nl);
    [exact dh_digits | exact dh_nonempty | exact line_end_no_digit
    | cbn [rest]; rewrite length_append; lia | reflexivity | ].
  apply rmatch_eol_line_end.
Qed.

Lemma height_tail_line_end p g :
  exists st,
    rmatch (RSeq (RChr "x") (RSeq (RGroup (RPlus RDigit)) REol))
      (MState p (String "x" (dh ++ nl)) g) Some = Some st
    /\ grp st = Some dh.
Proof.
  eexists. split.
  - rewrite rmatch_seq, rmatch_chr_cons, rmatch_seq, rmatch_group, rmatch_plus.
    eapply plus_digit_greedy with (ds := dh) (tl := nl);
      [exact dh_digits | exact dh_nonempty | exact line_end_no_digit
      | cbn [rest]; rewrite length_append; lia | reflexivity | ].
    cbv beta. cbn [pos rest]. apply rmatch_eol_line_end.
  - cbn [grp pos]. f_equal.
    replace (S p + String.length dh - S p)%nat with (String.length dh) by lia.
    apply substring_prefix.
Qed.

Lemma width_shape_w :
  exists st, re_match width_re (dw ++ nl) = Some st /\ grp st = Some dw.
Proof.
  eexists. split.
  - rewrite width_re_unfold.
    eapply plus_digit_greedy with (ds := dw) (tl := nl);
      [exact dw_digits | exact dw_nonempty | exact line_end_no_digit
      | rewrite length_append; lia | reflexivity | ].
    cbv beta. cbn [pos rest].
    rewrite rmatch_seq, rmatch_opt, rmatch_seq, rmatch_x_line_end.
    apply rmatch_eol_line_end.
  - cbn [grp]. f_equal.
    replace (0 + String.length dw - 0)%nat with (String.length dw) by lia.
    apply substring_prefix.
Qed.

Lemma width_shape_wxh :
  exists st, re_match width_re (dw ++ "x" ++ dh ++ nl) = Some st /\ grp st = Some dw.
Proof.
  eexists. split.
  - rewrite width_re_unfold.
    eapply plus_digit_greedy with (ds := dw) (tl := "x" ++ dh ++ nl);
      [exact dw_digits | exact dw_nonempty | reflexivity
      | rewrite length_append; lia | reflexivity | ].
    change ("x" ++ dh ++ nl) with (String "x" (dh ++ nl)).
    cbv beta. cbn [pos rest].
    rewrite rmatch_seq, rmatch_opt, rmatch_seq, rmatch_chr_cons.
    change (rmatch (RPlus RDigit) ?st (fun st' => rmatch REol st' Some))
      with (rmatch (RSeq (RPlus RDigit) REol) st Some).
    rewrite digits_to_line_end. reflexivity.
  - cbn [grp]. f_equal.
    replace (0 + String.length dw - 0)%nat with (String.length dw) by lia.
    apply substring_prefix.
Qed.

Lemma width_shape_xh s : re_match width_re (String "x" s) = None.
Proof. rewrite width_re_unfold. apply plus_digit_none. reflexivity. Qed.

Lemma digits_line_end_no_x : forall ds, all_digits ds = true ->
  startswith "x" (ds ++ nl) = false.
Proof.
  intros [|c ds] Hd.
  - destruct nl_end as [-> | ->]; reflexivity.
  - simpl in Hd. apply andb_prop in Hd as [Hc _].
    rewrite append_cons. cbn [startswith].
    destruct (Ascii.eqb "x" c) eqn:E; [|reflexivity].
    apply Ascii.eqb_eq in E. subst c. discriminate.
Qed.

Lemma plus_digit_fail_line_end ds : forall k p g fuel,
  all_digits ds = true ->
  (forall p' s' g', startswith "x" s' = false -> k (MState p' s' g') = None) ->
  plus_loop (rmatch RDigit) k fuel (MState p (ds ++ nl) g) = None.
Proof.
  induction ds as [|c ds IH]; intros k p g fuel Hd Hk.
  - apply plus_digit_none. exact line_end_no_digit.
  - pose proof Hd as Hd'. simpl in Hd. apply andb_prop in Hd as [Hc Hd].
    destruct fuel as [|fuel]; [reflexivity|].
    rewrite append_cons, plus_loop_step, rmatch_digit_cons, Hc. cbn [pos].
    replace (p <? S p)%nat with true by (symmetry; apply Nat.ltb_lt; lia).
    rewrite (IH k (S p) g fuel Hd Hk). apply Hk. now apply digits_line_end_no_x.
Qed.

Lemma height_shape_w : re_match height_re (dw ++ nl) = None.
Proof.
  rewrite height_re_unfold. cbv zeta.
  assert (Hk : forall p' s' g', startswith "x" s' = false ->
            rmatch (RSeq (RChr "x") (RSeq (RGroup (RPlus RDigit)) REol))
              (MState p' s' g') Some = None).
  { intros p' s' g' Hs. rewrite rmatch_seq.
    destruct s' as [|c s']; [reflexivity|].
    cbn [rmatch rest]. cbn [startswith] in Hs.
    destruct (Ascii.eqb "x" c); [discriminate | reflexivity]. }
  rewrite plus_digit_fail_line_end by (exact dw_digits || exact Hk).
  apply Hk. now apply digits_line_end_no_x.
Qed.

Lemma height_shape_wxh :
  exists st, re_match height_re (dw ++ "x" ++ dh ++ nl) = Some st /\ grp st = Some dh.
Proof.
  destruct (height_tail_line_end (0 + String.length dw) None) as (st & Hst & Hg).
  exists st. split; [|exact Hg].
  rewrite height_re_unfold. cbv zeta.
  erewrite plus_digit_greedy with (ds := dw) (tl := "x" ++ dh ++ nl);
    [reflexivity | exact dw_digits | exact dw_nonempty | reflexivity
    | rewrite length_append; lia | reflexivity | exact Hst].
Qed.

Lemma height_shape_xh :
  exists st, re_match height_re ("x" ++ dh ++ nl) = Some st /\ grp st = Some dh.
Proof.
  destruct (height_tail_line_end 0 None) as (st & Hst & Hg).
  exists st. split; [|exact Hg].
  rewrite height_re_unfold. cbv zeta.
  rewrite plus_digit_none by reflexivity. exact Hst.
Qed.

End AcceptedShapes.

Lemma dim_of_match_digits st d z :
  grp st = Some d -> int_of_str d = Ok z -> dim_of_match (Some st) = Ok (Some z).
Proof.
  intros Hg Hz. unfold dim_of_match, group1. rewrite Hg. cbn [rbind]. now rewrite Hz.
Qed.

Lemma int_of_str_nonempty d z : int_of_str d = Ok z -> d <> "".
Proof. intros H ->. discriminate. Qed.

(** X3. Every string of an accepted shape parses, under [thumbnail], to
    the decimal values of its runs of digits: leading zeros are
    allowed, and so is one newline after the last digit. *)
Theorem geometry_parse_accepts_shapes exc dw dh nl zw zh :
  all_digits dw = true -> int_of_str dw = Ok zw ->
  all_digits dh = true -> int_of_str dh = Ok zh ->
  is_line_end nl ->
  geometry_parse "thumbnail" (dw ++ nl) exc = Ok (Some zw, None)
  /\ geometry_parse "thumbnail" (dw ++ "x" ++ dh ++ nl) exc = Ok (Some zw, Some zh)
  /\ geometry_parse "thumbnail" ("x" ++ dh ++ nl) exc = Ok (None, Some zh).
Proof.
  intros Hdw Hzw Hdh Hzh Hnl.
  pose proof (int_of_str_nonempty _ _ Hzw) as Hnw.
  pose proof (int_of_str_nonempty _ _ Hzh) as Hnh.
  repeat split; unfold geometry_parse.
  - destruct (width_shape_w dw nl Hdw Hnw Hnl) as (st & -> & Hg).
    rewrite (height_shape_w dw nl Hdw Hnl). cbn [is_some orb negb].
    rewrite (dim_of_match_digits _ _ _ Hg Hzw). cbn [rbind dim_of_match].
    now rewrite andb_false_r.
  - destruct (width_shape_wxh dw dh nl Hdw Hdh Hnw Hnh Hnl) as (sw & -> & Hgw).
    destruct (height_shape_wxh dw dh nl Hdw Hdh Hnw Hnh Hnl) as (sh & -> & Hgh).
    cbn [is_some orb negb].
    rewrite (dim_of_match_digits _ _ _ Hgw Hzw), (dim_of_match_digits _ _ _ Hgh Hzh).
    cbn [rbind]. now rewrite andb_false_r.
  - change ("x" ++ dh ++ nl) with (String "x" (dh ++ nl)).
    rewrite width_shape_xh.
    destruct (height_shape_xh dh nl Hdh Hnh Hnl) as (sh & Hsh & Hgh).
    change ("x" ++ dh ++ nl) with (String "x" (dh ++ nl)) in Hsh. rewrite Hsh.
    cbn [is_some orb negb].
    rewrite (dim_of_match_digits _ _ _ Hgh Hzh). cbn [rbind dim_of_match].
    now rewrite andb_false_r.
Qed.

(** X3, witness: leading zeros and a final newline. *)
Lemma geometry_parse_accepts_shapes_witness :
  geometry_parse "thumbnail" ("0640" ++ String newline "") ValueError
  = Ok (Some 640, None)
  /\ geometry_parse "thumbnail" ("0640" ++ "x" ++ "480" ++ String newline "") ValueError
     = Ok (Some 640, Some 480)
  /\ geometry_parse "thumbnail" ("x" ++ "480" ++ String newline "") ValueError
     = Ok (None, Some 480).
Proof.
  apply (geometry_parse_accepts_shapes ValueError "0640" "480" (String newline "") 640 480);
    try reflexivity.
  right. reflexivity.
Defined.

(** ** quack *)

Section QuackFacts.

Lemma first_prop_cases t props default :
  first_prop t props default = default
  \/ exists x, first_prop t props default = PStr x /\ hasattr t x = true.
Proof.
  induction props as [|x props IH]; [now left|].
  cbn [first_prop]. destruct (hasattr t x) eqn:E; [|exact IH].
  right. exists x. auto.
Qed.

Lemma getattr_present t x : hasattr t x = true -> exists v, getattr t (PStr x) = Ok v.
Proof.
  unfold hasattr, getattr. destruct (getattr_opt t x) as [v|]; [|discriminate].
  intros _. now exists v.
Qed.

Lemma quack_search_total to_search props default :
  truthy default = false ->
  exists v, quack_search to_search props default = Ok v.
Proof.
  intros Hd. induction to_search as [|t ts IH]; [now exists default|].
  cbn [quack_search].
  destruct (first_prop_cases t props default) as [-> | (x & -> & Hx)].
  - rewrite Hd. exact IH.
  - destruct (truthy (PStr x)); [|exact IH]. now apply getattr_present.
Qed.

(** X6. With a false default ([None] and [''] are the only ones the
    code uses) [quack] never raises, whatever the object, the
    properties and the levels: it always returns a value. *)
Theorem quack_never_raises thing props levels default :
  truthy default = false ->
  exists v, quack thing props levels default = Ok v.
Proof.
  intros Hd. unfold quack.
  destruct thing; try (now apply quack_search_total); now exists default.
Qed.

(** X6, witness. *)
Lemma quack_never_raises_witness :
  exists v, quack Sample.photo ["url"; "path"] ["photo"; "image"] PNone = Ok v.
Proof. apply (quack_never_raises Sample.photo ["url"; "path"] ["photo"; "image"] PNone).
  reflexivity.
Defined.

Lemma first_prop_skip t pre p post default :
  forallb (fun q => negb (hasattr t q)) pre = true ->
  hasattr t p = true ->
  first_prop t (pre ++ p :: post) default = PStr p.
Proof.
  induction pre as [|q pre IH]; intros Hpre Hp.
  - cbn [app first_prop]. now rewrite Hp.
  - cbn [forallb] in Hpre. apply andb_prop in Hpre as [Hq Hpre].
    apply negb_true_iff in Hq. cbn [app first_prop]. rewrite Hq. now apply IH.
Qed.

(** X7. The object's own attributes come first, in the order of the
    property list: the first listed property that the object itself
    has is returned, whatever the nested levels hold, and it is
    returned as it is, an empty or [None] value included. *)
Theorem quack_prefers_own_attribute attrs pre p post levels default v :
  forallb (fun q => negb (hasattr (PObj attrs) q)) pre = true ->
  assoc p attrs = Some v ->
  p <> "" ->
  quack (PObj attrs) (pre ++ p :: post) levels default = Ok v.
Proof.
  intros Hpre Hp Hne. unfold quack. cbn [quack_search].
  rewrite (first_prop_skip (PObj attrs) pre p post default Hpre)
    by (unfold hasattr; cbn [getattr_opt]; now rewrite Hp).
  cbn [truthy].
  replace (p =? "")%string with false by (symmetry; now apply String.eqb_neq).
  cbn [negb getattr getattr_opt]. now rewrite Hp.
Qed.

(** X7, witness: a photo whose [name] is [None] and whose [url] is set
    answers [None] for name, url, path. *)
Lemma quack_prefers_own_attribute_witness :
  quack (PObj [("url", PStr "a.jpg"); ("name", PNone)])
    ([] ++ "name" :: ["url"; "path"]) ["photo"; "image"] PNone = Ok PNone.
Proof.
  apply (quack_prefers_own_attribute
           [("url", PStr "a.jpg"); ("name", PNone)] [] "name" ["url"; "path"]
           ["photo"; "image"] PNone PNone); [reflexivity | reflexivity | discriminate].
Defined.



End QuackFacts.

(** ** compute_img and its callers *)

Section ComputeImgMore.

Variable resolve : string -> pyval -> result pyval.
Variable conf : settings.

Lemma placekitten_text w h :
  format "http://placekitten.com/%s/%s" [w; h]
  = Ok ("http://placekitten.com/" ++ py_str w ++ "/" ++ py_str h).
Proof.
  unfold format. cbn [format_go rbind]. rewrite append_nil_r. reflexivity.
Qed.

Lemma source_width_none : source_width PNone = Ok (PStr "").
Proof. reflexivity. Qed.

Lemma source_height_none : source_height PNone = Ok (PStr "").
Proof. reflexivity. Qed.

Lemma exit_cases x w h :
  (exists d, exit resolve conf x w h = Ok d)
  \/ (exists e, urljoin resolve (MEDIA_URL conf) x = Raise e
                /\ exit resolve conf x w h = Raise e).
Proof.
  unfold exit. destruct (urljoin resolve (MEDIA_URL conf) x) as [src|e]; cbn [rbind];
    [left | right]; eauto.
Qed.

Lemma compute_img_strings_cases u action geometry :
  (exists d, compute_img resolve conf (PStr u) action geometry = Ok d)
  \/ (exists x e, urljoin resolve (MEDIA_URL conf) x = Raise e
                  /\ compute_img resolve conf (PStr u) action geometry = Raise e).
Proof.
  assert (Hexit : forall x w h r, r = exit resolve conf x w h ->
            (exists d, r = Ok d)
            \/ (exists x e, urljoin resolve (MEDIA_URL conf) x = Raise e /\ r = Raise e)).
  { intros x w h r ->.
    destruct (exit_cases x w h) as [(d & ->) | (e & He & ->)]; [left | right]; eauto. }
  unfold compute_img. cbn [rbind]. rewrite source_width_none, source_height_none.
  cbn [rbind].
  destruct (negb (truthy (PStr u))); [eapply Hexit; reflexivity|].
  destruct (external conf u); [left; eauto|].
  destruct (geometry_parse_cases action geometry ValueError) as [-> | (w & h & -> & _)];
    [eapply Hexit; reflexivity|].
  unfold thumbnail_dims, upscale_guard. cbn [truthy]. rewrite andb_false_r.
  cbn [rbind fst snd]. rewrite render_src_text. cbn [rbind].
  destruct (LAZYTHUMBS_DUMMY conf); [rewrite placekitten_text|]; cbn [rbind];
    eapply Hexit; reflexivity.
Qed.

(** X9. On a bare path or url [compute_img] raises nothing of its own:
    whatever the string, the action and the geometry, it returns a
    dict, unless [urljoin] raises on the address handed to it, and then
    that exception is the outcome. *)
Theorem compute_img_on_strings_raises_only_urljoin u action geometry :
  (exists d, compute_img resolve conf (PStr u) action geometry = Ok d)
  \/ (exists x e, urljoin resolve (MEDIA_URL conf) x = Raise e
                  /\ compute_img resolve conf (PStr u) action geometry = Raise e).
Proof. apply compute_img_strings_cases. Qed.

(** With an empty media prefix [urljoin] hands the address back, and
    [compute_img] returns a dict for every string. *)
Lemma compute_img_total_without_media_prefix u action geometry :
  MEDIA_URL conf = "" ->
  exists d, compute_img resolve conf (PStr u) action geometry = Ok d.
Proof.
  intros Hm.
  destruct (compute_img_strings_cases u action geometry) as [H | (x & e & He & _)];
    [exact H|].
  unfold urljoin in He. rewrite Hm in He. discriminate.
Qed.

(** X10. A geometry that does not parse is not an error of its own for
    an object either: the outcome is that of [exit] on the url (less
    the media prefix) and the natural dimensions, which is the dict
    with the joined url and these dimensions, or the exception
    [urljoin] raises on a malformed url. *)
Theorem compute_img_falls_back_on_bad_geometry attrs action geometry u s_w s_h :
  quack (PObj attrs) ["name"; "url"; "path"] ["photo"; "image"] PNone = Ok (PStr u) ->
  external conf u = false ->
  source_width (PObj attrs) = Ok s_w ->
  source_height (PObj attrs) = Ok s_h ->
  geometry_parse action geometry ValueError = Raise ValueError ->
  compute_img resolve conf (PObj attrs) action geometry
  = exit resolve conf (PStr (strip_media conf u)) s_w s_h.
Proof.
  intros Hurl Hext Hsw Hsh Hparse. unfold compute_img.
  rewrite Hurl. cbn [rbind]. rewrite Hsw, Hsh, Hext, Hparse. cbn [rbind].
  destruct (truthy (PStr u)) eqn:Hu; cbn [negb]; [reflexivity|].
  assert (u = "") as ->.
  { cbn in Hu. apply negb_false_iff in Hu. now apply String.eqb_eq in Hu. }
  reflexivity.
Qed.

Lemma get_img_attrs_geometry width height :
  exists geometry,
    (if truthy width && negb (truthy height)
     then Ok (py_str width)
     else format "%sx%s" [py_or width (PStr ""); height]) = Ok geometry.
Proof.
  destruct (truthy width && negb (truthy height)); [eauto|].
  unfold format. cbn [format_go rbind]. eauto.
Qed.

(** X11. For a url that stays fully qualified after the media prefix is
    stripped, [compute_img] answers with the key [url], not [src], so
    [get_img_url] raises [KeyError] whatever the action and the
    dimensions. *)
Theorem get_img_url_external_raises u action width height :
  u <> "" ->
  external conf u = true ->
  get_img_url resolve conf (PStr u) action width height = Raise (KeyError "src").
Proof.
  intros Hne Hext. unfold get_img_url, get_img_attrs.
  destruct (get_img_attrs_geometry width height) as [geometry ->].
  cbn [rbind]. unfold compute_img. cbn [rbind truthy].
  replace (u =? "")%string with false by (symmetry; now apply String.eqb_neq).
  cbn [negb]. rewrite Hext. reflexivity.
Qed.

Lemma get_img_attrs_geometry_canonical thing action (w h : option Z) :
  get_img_attrs resolve conf thing action (of_dim w) (of_dim h)
  = compute_img resolve conf thing action (build_geometry w h).
Proof.
  unfold get_img_attrs, build_geometry, dim_truthy, format, py_or.
  destruct w as [zw|], h as [zh|]; cbn [of_dim truthy negb andb];
    try destruct (zw =? 0); try destruct (zh =? 0);
    cbn [negb andb format_go rbind py_str]; rewrite ?append_nil_r; reflexivity.
Qed.





(** X15. In dummy mode a bare local path gets the placeholder url for
    the parsed dimensions, a missing dimension appearing as "None",
    and no render url: the outcome is that of [exit] on the
    placeholder url and the parsed dimensions. *)
Theorem compute_img_dummy_mode u action geometry w h :
  u <> "" -> startswith "http" u = false ->
  geometry_parse action geometry ValueError = Ok (w, h) ->
  LAZYTHUMBS_DUMMY conf = true ->
  compute_img resolve conf (PStr u) action geometry
  = exit resolve conf
      (PStr ("http://placekitten.com/" ++ py_str (of_dim w) ++ "/" ++ py_str (of_dim h)))
      (of_dim w) (of_dim h).
Proof.
  intros Hne Hhttp Hparse Hdummy. unfold compute_img. cbn [rbind truthy].
  replace (u =? "")%string with false by (symmetry; now apply String.eqb_neq).
  cbn [negb]. unfold external, strip_media. rewrite Hhttp. cbn [andb].
  rewrite Hparse. unfold thumbnail_dims, upscale_guard. cbn [truthy].
  rewrite andb_false_r. cbn [rbind fst snd].
  rewrite render_src_text, Hdummy, placekitten_text. reflexivity.
Qed.

End ComputeImgMore.

(** X10, witness. *)
Lemma compute_img_falls_back_on_bad_geometry_witness :
  compute_img Sample.resolve Sample.conf Sample.photo "resize" "wide"
  = Ok [("src", PStr "a.jpg"); ("width", PStr "200"); ("height", PStr "100")].
Proof.
  apply (compute_img_falls_back_on_bad_geometry Sample.resolve Sample.conf
           [("name", PStr "a.jpg"); ("width", PInt 200); ("height", PInt 100)]
           "resize" "wide" "a.jpg" (PInt 200) (PInt 100)); reflexivity.
Defined.

(** X11, witness. *)
Lemma get_img_url_external_raises_witness :
  get_img_url Sample.resolve Sample.conf (PStr "http://other.example/a.jpg")
    "resize" (PInt 100) (PInt 100) = Raise (KeyError "src").
Proof.
  apply (get_img_url_external_raises Sample.resolve Sample.conf
           "http://other.example/a.jpg" "resize"
           (PInt 100) (PInt 100)); [discriminate | reflexivity].
Defined.



(** X15, witness. *)
Lemma compute_img_dummy_mode_witness :
  compute_img Sample.resolve (Settings "" "media" "cache" 3600 60 3600 60 None true)
    (PStr "a.jpg") "thumbnail" "100"
  = Ok [("src", PStr "http://placekitten.com/100/None");
        ("width", PStr "100"); ("height", PStr "")].
Proof.
  apply (compute_img_dummy_mode Sample.resolve
           (Settings "" "media" "cache" 3600 60 3600 60 None true)
           "a.jpg" "thumbnail" "100" (Some 100) None); try reflexivity. discriminate.
Defined.

Section ComputeImgShape.

Variable resolve : string -> pyval -> result pyval.
Variable conf : settings.

Lemma upscale_guard_form img url w h d :
  upscale_guard resolve conf img url w h = Ok (Some d) ->
  exists w' h', exit resolve conf url w' h' = Ok d.
Proof.
  unfold upscale_guard. intros H.
  repeat match type of H with
         | context [rbind ?x _] => destruct x eqn:?; cbn [rbind] in H; try discriminate
         | context [if ?b then _ else _] => destruct b eqn:?; try discriminate
         end;
    inversion H; subst; eauto.
Qed.

Lemma exit_form u w h d :
  exit resolve conf u w h = Ok d ->
  exists src, d = [ ("src", src);
                    ("width", PStr (py_str (py_or w (PStr ""))));
                    ("height", PStr (py_str (py_or h (PStr "")))) ].
Proof.
  unfold exit. destruct (urljoin resolve (MEDIA_URL conf) u) as [src|]; cbn [rbind];
    [|discriminate].
  intros H. inversion H. eauto.
Qed.

(** Every dict that [compute_img] returns is either built by [exit] or
    is the pass-through answer for an external url. *)
Lemma compute_img_result_form thing action geometry d :
  compute_img resolve conf thing action geometry = Ok d ->
  (exists u w h, exit resolve conf u w h = Ok d)
  \/ exists u, d = [("url", PStr u); ("width", PStr ""); ("height", PStr "")].
Proof.
  unfold compute_img. intros H.
  destruct (match thing with
            | PStr _ => Ok thing
            | _ => quack match thing with PStr _ => PNone | _ => thing end
                     ["name"; "url"; "path"] ["photo"; "image"] PNone
            end) as [url|]; cbn [rbind] in H; [|discriminate].
  destruct (negb (truthy url)).
  - repeat match type of H with
           | context [rbind ?x _] => destruct x eqn:?; cbn [rbind] in H; try discriminate
           end.
    left. eauto.
  - destruct url as [| |u| |]; try discriminate.
    destruct (external conf u); [inversion H; right; eauto|].
    destruct (geometry_parse action geometry ValueError) as [[w h]|e].
    + destruct (thumbnail_dims action _ w h) as [wh|]; cbn [rbind] in H; [|discriminate].
      destruct (upscale_guard resolve conf _ _ (fst wh) (snd wh)) as [[d0|]|] eqn:G;
        cbn [rbind] in H; [| |discriminate].
      * inversion H; subst d0. apply upscale_guard_form in G as (w' & h' & G).
        left. eauto.
      * repeat match type of H with
               | context [rbind ?x _] =>
                   destruct x eqn:?; cbn [rbind] in H; try discriminate
               end.
        left. eauto.
    + destruct e; try discriminate.
      repeat match type of H with
             | context [rbind ?x _] => destruct x eqn:?; cbn [rbind] in H; try discriminate
             end.
      left. eauto.
Qed.

(** X16. Whatever [compute_img] returns carries [width] and [height] as
    strings, and the address under [src] or, for an external url,
    under [url]. *)
Theorem compute_img_result_keys thing action geometry d :
  compute_img resolve conf thing action geometry = Ok d ->
  (exists ws, getitem d "width" = Ok (PStr ws))
  /\ (exists hs, getitem d "height" = Ok (PStr hs))
  /\ ((exists v, getitem d "src" = Ok v) \/ (exists v, getitem d "url" = Ok v)).
Proof.
  intros H. apply compute_img_result_form in H as [(u & w & h & H) | (u & ->)];
    [apply exit_form in H as (src & ->)|];
    (split; [|split]); try (eexists; reflexivity).
  - left. eexists. reflexivity.
  - right. eexists. reflexivity.
Qed.

(** X17. End to end, for a bare local path and positive dimensions
    the outcome of [get_img_url] is that of [urljoin] on the media
    prefix and the render url with the canonical geometry "WxH". *)
Theorem get_img_url_local_path u action (W H : positive) :
  u <> "" -> startswith "http" u = false ->
  LAZYTHUMBS_DUMMY conf = false ->
  get_img_url resolve conf (PStr u) action (PInt (Z.pos W)) (PInt (Z.pos H))
  = urljoin resolve (MEDIA_URL conf)
      (PStr (match LAZYTHUMBS_URL conf with Some b => b | None => "/" end
             ++ "lt_cache/" ++ action ++ "/"
             ++ (str_of_int (Z.pos W) ++ "x" ++ str_of_int (Z.pos H))
             ++ "/" ++ u)).
Proof.
  intros Hne Hhttp Hdummy. unfold get_img_url.
  change (PInt (Z.pos W)) with (of_dim (Some (Z.pos W))).
  change (PInt (Z.pos H)) with (of_dim (Some (Z.pos H))).
  rewrite get_img_attrs_geometry_canonical, build_geometry_wxh.
  rewrite (compute_img_bare_path resolve conf u action _ (Some (Z.pos W)) (Some (Z.pos H))
             Hne Hhttp (geometry_parse_wxh action ValueError W H) Hdummy).
  unfold exit. now destruct (urljoin resolve (MEDIA_URL conf) _).
Qed.

End ComputeImgShape.

(** X16, witness. *)
Lemma compute_img_result_keys_witness :
  (exists ws, getitem [("src", PStr "/lt_cache/resize/100x50/a.jpg");
                       ("width", PStr "100"); ("height", PStr "50")] "width"
              = Ok (PStr ws))
  /\ (exists hs, getitem [("src", PStr "/lt_cache/resize/100x50/a.jpg");
                          ("width", PStr "100"); ("height", PStr "50")] "height"
                 = Ok (PStr hs))
  /\ ((exists v, getitem [("src", PStr "/lt_cache/resize/100x50/a.jpg");
                          ("width", PStr "100"); ("height", PStr "50")] "src" = Ok v)
      \/ (exists v, getitem [("src", PStr "/lt_cache/resize/100x50/a.jpg");
                             ("width", PStr "100"); ("height", PStr "50")] "url" = Ok v)).
Proof.
  apply (compute_img_result_keys Sample.resolve Sample.conf (PStr "a.jpg") "resize"
           "100x50"). reflexivity.
Defined.

(** X17, witness. *)
Lemma get_img_url_local_path_witness :
  get_img_url Sample.resolve Sample.conf (PStr "a.jpg") "resize" (PInt 100) (PInt 50)
  = Ok (PStr "/lt_cache/resize/100x50/a.jpg").
Proof.
  apply (get_img_url_local_path Sample.resolve Sample.conf "a.jpg" "resize" 100 50);
    [discriminate | reflexivity | reflexivity].
Defined.

(** ** More on the view *)

Section ViewMore.

Variable conf : settings.
Variable lib : library.

Lemma os_path_join_keeps_root a b :
  startswith "/" a = true -> startswith "/" (os_path_join a b) = true.
Proof.
  intros Ha. unfold os_path_join.
  destruct (startswith "/" b) eqn:Hb; [exact Hb|].
  destruct a as [|c a]; [discriminate|].
  cbn [startswith] in Ha. apply andb_prop in Ha as [Hc _].
  apply Ascii.eqb_eq in Hc. subst c.
  destruct ((String "/" a =? "")%string || endswith_char "/" (String "/" a));
    rewrite append_cons; reflexivity.
Qed.

(** X18. With an absolute source root every request is answered 404,
    whatever the action, the geometry and the path, and nothing is
    read or written: the joined path always begins with '/'. *)
Theorem get_absolute_root_rejects_all action geometry source_path w :
  startswith "/" (THUMBNAIL_SOURCE_PATH conf) = true ->
  get conf lib action geometry source_path w
  = (Ok (Response 404 "" "image/jpeg"
           [("Cache-Control",
             "public,max-age=" ++ str_of_int (THUMBNAIL_404_CACHE_TIMEOUT conf))]), w).
Proof.
  intros Hroot. rewrite get_rejects_root by now apply os_path_join_keeps_root.
  apply four_oh_four_response.
Qed.

(** X19. When the height is left out, what [thumbnail] builds from the
    opened image is a square whose side is the requested width capped
    by the source height: the image is resized to that side by the
    derived height capped by the source width, and then cropped to the
    box (0, 0, side, side), anchored at the top left corner. *)
Theorem thumbnail_without_height_is_square img width out :
  thumbnail_opened img width None = Ok out ->
  exists h,
    scale (PInt (snd (size img))) (Some width) (PInt (fst (size img))) = Ok h
    /\ out = Cropped (Resized img (Z.min width (snd (size img)))
                        (Z.min h (fst (size img))))
               0 0 (Z.min width (snd (size img))) (Z.min width (snd (size img)))
    /\ size out = (Z.min width (snd (size img)), Z.min width (snd (size img))).
Proof.
  unfold thumbnail_opened.
  destruct (scale _ _ _) as [h|]; cbn [rbind fst snd]; [|discriminate].
  intros H. inversion H. exists h. repeat split. cbn [size]. f_equal; lia.
Qed.

End ViewMore.

(** X18, witness. *)
Lemma get_absolute_root_rejects_all_witness :
  get (Settings "" "/srv/media" "cache" 3600 60 3600 60 None false)
    (Library (fun s => s) (fun _ => "") (fun _ => Raise ValueError) (fun _ => None)
       (fun _ => "") (fun _ p => p) (fun _ _ _ => None))
    "thumbnail" "100" "a.jpg" Sample.empty_world
  = (Ok (Response 404 "" "image/jpeg" [("Cache-Control", "public,max-age=60")]),
     Sample.empty_world).
Proof.
  apply (get_absolute_root_rejects_all
           (Settings "" "/srv/media" "cache" 3600 60 3600 60 None false)).
  reflexivity.
Defined.

(** X19, witness: a 100x200 portrait at width 100; the derived height
    is 200, capped to 100 by the source width. *)
Lemma thumbnail_without_height_is_square_witness :
  exists h,
    scale (PInt 200) (Some 100) (PInt 100) = Ok h
    /\ Cropped (Resized (Decoded "p.jpg" 100 200) 100 100) 0 0 100 100
       = Cropped (Resized (Decoded "p.jpg" 100 200) 100 (Z.min h 100)) 0 0 100 100
    /\ size (Cropped (Resized (Decoded "p.jpg" 100 200) 100 100) 0 0 100 100)
       = (100, 100).
Proof.
  apply (thumbnail_without_height_is_square (Decoded "p.jpg" 100 200) 100). reflexivity.
Defined.

(** ** Urls under the media prefix *)

Section MediaPrefix.

Variable resolve : string -> pyval -> result pyval.
Variable conf : settings.

Lemma startswith_append m p : startswith m (m ++ p) = true.
Proof.
  induction m as [|c m IH]; [reflexivity|].
  rewrite append_cons. cbn [startswith]. now rewrite Ascii.eqb_refl, IH.
Qed.

Lemma startswith_extends q : forall m p,
  startswith q m = true -> startswith q (m ++ p) = true.
Proof.
  induction q as [|c q IH]; intros m p H; [reflexivity|].
  destruct m as [|d m]; [discriminate|].
  cbn [startswith] in H. apply andb_prop in H as [Hc Hq].
  rewrite append_cons. cbn [startswith]. now rewrite Hc, (IH m p Hq).
Qed.

Lemma drop_append m p : drop (String.length m) (m ++ p) = p.
Proof.
  induction m as [|c m IH]; [reflexivity|].
  rewrite append_cons. cbn [String.length drop]. exact IH.
Qed.

Lemma drop_length n : forall s, (String.length (drop n s) <= String.length s)%nat.
Proof.
  induction n as [|n IH]; intros s; [cbn; lia|].
  destruct s as [|c s]; cbn [drop String.length]; [lia|].
  specialize (IH s). lia.
Qed.

(** The result of [replace_fuel] does not depend on the fuel once it
    covers the string. *)
Lemma replace_fuel_enough old new : old <> "" -> forall f1 f2 s,
  (String.length s <= f1)%nat -> (String.length s <= f2)%nat ->
  replace_fuel f1 old new s = replace_fuel f2 old new s.
Proof.
  intros Hold. induction f1 as [|f1 IH]; intros f2 s H1 H2.
  - destruct s; [|cbn in H1; lia]. destruct f2; reflexivity.
  - destruct s as [|c s]; [destruct f2; reflexivity|].
    destruct f2 as [|f2]; [cbn in H2; lia|].
    cbn [replace_fuel]. cbn [String.length] in H1, H2.
    destruct (startswith old (String c s)).
    + f_equal. destruct old as [|o old]; [congruence|].
      cbn [String.length drop]. pose proof (drop_length (String.length old) s).
      apply IH; lia.
    + f_equal. apply IH; lia.
Qed.

Lemma replace_prefix o t new p :
  replace (String o t) new (String o t ++ p) = new ++ replace (String o t) new p.
Proof.
  unfold replace. rewrite length_append. cbn [String.length Nat.add].
  rewrite (append_cons o t p). cbn [replace_fuel].
  rewrite <- (append_cons o t p), startswith_append.
  change (S (String.length t)) with (String.length (String o t)).
  rewrite drop_append. f_equal.
  apply replace_fuel_enough; [discriminate | lia | lia].
Qed.

(** X20. A fully qualified url under the media prefix is routed like
    the path behind the prefix: for an 'http' prefix [m] and a rest [p]
    that is still not fully qualified once occurrences of [m] are
    removed, [m ++ p] is not external and is stripped to that rest. *)
Theorem media_prefix_is_stripped p :
  startswith "http" (MEDIA_URL conf) = true ->
  startswith "http" (replace (MEDIA_URL conf) "" p) = false ->
  external conf (MEDIA_URL conf ++ p) = false
  /\ strip_media conf (MEDIA_URL conf ++ p) = replace (MEDIA_URL conf) "" p.
Proof.
  intros Hm Hp.
  assert (Hne : MEDIA_URL conf <> "") by (intros E; rewrite E in Hm; discriminate).
  assert (Hs : startswith "http" (MEDIA_URL conf ++ p) = true).
  { now apply startswith_extends. }
  unfold external, strip_media. rewrite Hs.
  destruct (MEDIA_URL conf) as [|o t]; [congruence|]. rewrite replace_prefix.
  change ("" ++ replace (String o t) "" p) with (replace (String o t) "" p).
  now rewrite Hp.
Qed.

End MediaPrefix.

(** X20, witness. *)
Lemma media_prefix_is_stripped_witness :
  external (Settings "http://media.example/" "media" "cache" 3600 60 3600 60 None false)
    ("http://media.example/" ++ "photos/a.jpg") = false
  /\ strip_media (Settings "http://media.example/" "media" "cache" 3600 60 3600 60 None false)
       ("http://media.example/" ++ "photos/a.jpg")
     = replace "http://media.example/" "" "photos/a.jpg".
Proof.
  apply (media_prefix_is_stripped
           (Settings "http://media.example/" "media" "cache" 3600 60 3600 60 None false)
           "photos/a.jpg"); reflexivity.
Defined.
